(** * Link description generator: the script of [src/App.vue]

    A shallow embedding of the component's [<script setup>] block: the
    settings store over [localStorage], the model catalog loader
    [loadModels], the computed [filteredModels] and the completion action
    [generateDescription], together with the ECMAScript built-ins they call
    ([String.prototype.trim], [includes], [replace], property reads on
    values produced by [JSON.parse]). *)

From Stdlib Require Import NArith String Ascii.
From Stdlib Require Import Floats.PrimFloat.
From stdpp Require Import gmap list.

Local Open Scope N_scope.

(** ** ECMAScript strings

    A JavaScript string is a sequence of UTF-16 code units. *)

Module JsString.

Definition code_unit := N.
Definition t := list code_unit.

(** Source literals are written in UTF-8; [utf16] turns the bytes of a
    (well-formed) literal into the code units the engine holds. *)
Fixpoint utf8_code_points (bs : list N) : list N :=
  match bs with
  | [] => []
  | b0 :: r =>
      if b0 <? 0x80 then b0 :: utf8_code_points r
      else if b0 <? 0xE0 then
        match r with
        | b1 :: r1 =>
            N.lor (N.shiftl (N.land b0 0x1F) 6) (N.land b1 0x3F)
              :: utf8_code_points r1
        | _ => []
        end
      else if b0 <? 0xF0 then
        match r with
        | b1 :: b2 :: r2 =>
            N.lor (N.shiftl (N.land b0 0x0F) 12)
              (N.lor (N.shiftl (N.land b1 0x3F) 6) (N.land b2 0x3F))
              :: utf8_code_points r2
        | _ => []
        end
      else
        match r with
        | b1 :: b2 :: b3 :: r3 =>
            N.lor (N.shiftl (N.land b0 0x07) 18)
              (N.lor (N.shiftl (N.land b1 0x3F) 12)
                 (N.lor (N.shiftl (N.land b2 0x3F) 6) (N.land b3 0x3F)))
              :: utf8_code_points r3
        | _ => []
        end
  end.

Definition utf16_encode (cp : N) : list code_unit :=
  if cp <? 0x10000 then [cp]
  else
    let c := cp - 0x10000 in
    [0xD800 + N.shiftr c 10; 0xDC00 + N.land c 0x3FF].

Definition utf16 (s : string) : t :=
  flat_map utf16_encode
    (utf8_code_points (map N_of_ascii (list_ascii_of_string s))).

(** [ToBoolean] on a string: only the empty string is falsy. *)
Definition truthy (s : t) : bool :=
  match s with [] => false | _ => true end.

(** *** [String.prototype.trim]

    The code units removed are those of WhiteSpace and LineTerminator. *)
Definition is_white_space (c : code_unit) : bool :=
  (c =? 0x0009) || (c =? 0x000B) || (c =? 0x000C) || (c =? 0x0020)
  || (c =? 0x00A0) || (c =? 0xFEFF) || (c =? 0x1680)
  || ((0x2000 <=? c) && (c <=? 0x200A))
  || (c =? 0x202F) || (c =? 0x205F) || (c =? 0x3000).

Definition is_line_terminator (c : code_unit) : bool :=
  (c =? 0x000A) || (c =? 0x000D) || (c =? 0x2028) || (c =? 0x2029).

Definition is_trimmed (c : code_unit) : bool :=
  is_white_space c || is_line_terminator c.

Fixpoint trimStart (s : t) : t :=
  match s with
  | c :: r => if is_trimmed c then trimStart r else s
  | [] => []
  end.

Definition trimEnd (s : t) : t := rev (trimStart (rev s)).

Definition trim (s : t) : t := trimEnd (trimStart s).

(** *** [StringIndexOf], [includes] *)

Fixpoint startsWith (s search : t) : bool :=
  match search, s with
  | [], _ => true
  | _ :: _, [] => false
  | a :: search', b :: s' => (a =? b) && startsWith s' search'
  end.

(** [indexOf_from s search k]: the least index [i] with [search] at
    position [i] of [s], reported shifted by [k]; [None] is the engine's
    "not found". *)
Fixpoint indexOf_from (s search : t) (k : nat) : option nat :=
  if startsWith s search then Some k
  else
    match s with
    | [] => None
    | _ :: s' => indexOf_from s' search (S k)
    end.

Definition indexOf (s search : t) : option nat := indexOf_from s search 0.

Definition includes (s search : t) : bool :=
  match indexOf s search with Some _ => true | None => false end.

(** *** [String.prototype.replace] with a string pattern

    [GetSubstitution] as [replace] calls it for a string [searchValue]:
    the capture list is empty and there are no named captures. [$$] yields
    a dollar, [$&] the matched text, [$`] and [$'] the text before and
    after the match. A [$] followed by digits is a capture reference: two
    digits are read when they are there, cut back to one when the
    two-digit index exceeds the number of captures (here 0), and since no
    index lies in [1 .. 0] the reference is copied as it stands. [$<] with
    no named captures and every other code unit are copied. *)
Definition DOLLAR : code_unit := 0x24.
Definition AMPERSAND : code_unit := 0x26.
Definition APOSTROPHE : code_unit := 0x27.
Definition GRAVE : code_unit := 0x60.

Definition is_digit (c : code_unit) : bool := (0x30 <=? c) && (c <=? 0x39).

Definition digit_value (c : code_unit) : N := c - 0x30.

Fixpoint GetSubstitution (matched str : t) (position : nat) (template : t)
    : t :=
  match template with
  | [] => []
  | c :: r =>
      if c =? DOLLAR then
        match r with
        | [] => [c]
        | c1 :: r1 =>
            if c1 =? DOLLAR then
              DOLLAR :: GetSubstitution matched str position r1
            else if c1 =? GRAVE then
              take position str ++ GetSubstitution matched str position r1
            else if c1 =? AMPERSAND then
              matched ++ GetSubstitution matched str position r1
            else if c1 =? APOSTROPHE then
              let tailPos := (position + length matched)%nat in
              drop (Nat.min tailPos (length str)) str
                ++ GetSubstitution matched str position r1
            else if is_digit c1 then
              match r1 with
              | c2 :: r2 =>
                  if is_digit c2
                     && (10 * digit_value c1 + digit_value c2 =? 0)
                  then
                    c :: c1 :: c2 :: GetSubstitution matched str position r2
                  else c :: c1 :: GetSubstitution matched str position r1
              | [] => [c; c1]
              end
            else c :: GetSubstitution matched str position r
        end
      else c :: GetSubstitution matched str position r
  end.

(** [replace] for a string [searchValue] and a string [replaceValue]: the
    first occurrence only. *)
Definition replace (s searchValue replaceValue : t) : t :=
  match indexOf s searchValue with
  | None => s
  | Some pos =>
      take pos s
        ++ GetSubstitution searchValue s pos replaceValue
        ++ drop (pos + length searchValue)%nat s
  end.

End JsString.

Abbreviation jsstring := JsString.t.
Notation "'js' s" := (JsString.utf16 s%string) (at level 1, s at level 0,
  only parsing).


(** ** Values and abrupt completions

    The values [JSON.parse] can produce, plus [undefined], which is what a
    read of a missing property gives. Numbers are IEEE 754 doubles. *)

#[local] Set Warnings "-register-all".

Inductive value : Type :=
| VUndefined
| VNull
| VBool (b : bool)
| VNum (x : float)
| VStr (s : jsstring)
| VArr (elements : list value)
| VObj (properties : list (jsstring * value)).

Definition ToBoolean (v : value) : bool :=
  match v with
  | VUndefined | VNull => false
  | VBool b => b
  | VNum x => negb (PrimFloat.eqb x PrimFloat.zero || PrimFloat.is_nan x)
  | VStr s => JsString.truthy s
  | VArr _ | VObj _ => true
  end.

(** What a [throw] carries; the handlers of this program only log it. *)
Inductive error : Type :=
| NetworkError
| HttpError (status : N)
| SyntaxError
| TypeError.

Inductive completion (A : Type) : Type :=
| Normal (a : A)
| Throw (e : error).
Arguments Normal {A} a.
Arguments Throw {A} e.

#[global] Instance completion_ret : MRet completion := @Normal.

#[global] Instance completion_bind : MBind completion :=
  fun A B (k : A -> completion B) (c : completion A) =>
    match c with
    | Normal a => k a
    | Throw e => Throw e
    end.

(** The own property [name] of an object built by [JSON.parse]. *)
Fixpoint own_property (properties : list (jsstring * value))
    (name : jsstring) : value :=
  match properties with
  | [] => VUndefined
  | (k, v) :: rest =>
      if decide (k = name) then v else own_property rest name
  end.

(** [v.name] for the property names this program reads ([data], [id],
    [name], [description], [context_length], [pricing], [choices],
    [message], [content]): none of them is inherited from a prototype, so
    only objects have them; reading a property of [undefined] or [null]
    throws a TypeError. *)
Definition Get (v : value) (name : jsstring) : completion value :=
  match v with
  | VUndefined | VNull => Throw TypeError
  | VObj properties => Normal (own_property properties name)
  | VBool _ | VNum _ | VStr _ | VArr _ => Normal VUndefined
  end.

(** [v[0]]: the first element of an array, the first code unit of a
    string, the property ["0"] of an object. *)
Definition Get0 (v : value) : completion value :=
  match v with
  | VUndefined | VNull => Throw TypeError
  | VArr elements => Normal (default VUndefined (head elements))
  | VStr s =>
      Normal (match s with c :: _ => VStr [c] | [] => VUndefined end)
  | VObj properties => Normal (own_property properties (js "0"))
  | VBool _ | VNum _ => Normal VUndefined
  end.

(** The callback-taking array methods, with a callback that may throw:
    elements are visited in order and the first throw ends the call. *)
Fixpoint array_map {A B} (f : A -> completion B) (xs : list A)
    : completion (list B) :=
  match xs with
  | [] => Normal []
  | x :: rest =>
      y ← f x;
      ys ← array_map f rest;
      Normal (y :: ys)
  end.

Fixpoint array_filter {A} (p : A -> completion bool) (xs : list A)
    : completion (list A) :=
  match xs with
  | [] => Normal []
  | x :: rest =>
      keep ← p x;
      ys ← array_filter p rest;
      Normal (if keep : bool then x :: ys else ys)
  end.

(** [v.map(f)]: only an array has a callable [map]; on [undefined] and
    [null] the property read throws, on anything else the call of a
    non-function does. *)
Definition call_map {B} (v : value) (f : value -> completion B)
    : completion (list B) :=
  match v with
  | VArr elements => array_map f elements
  | _ => Throw TypeError
  end.

(** ** The component's data *)

(** [interface Model]. The fields hold whatever the catalog sent: the
    loader copies them from a value of type [any]. *)
Record Model : Type := {
  id : value;
  name : value;
  description : value;
  context_length : value;
  pricing : value
}.

(** A descriptor as [interface Model] declares it. *)
Definition is_string (v : value) : bool :=
  match v with VStr _ => true | _ => false end.

Definition is_optional_string (v : value) : bool :=
  match v with VStr _ | VUndefined => true | _ => false end.

Definition Model_typed (m : Model) : bool :=
  is_string (id m) && is_string (name m)
  && is_optional_string (description m).

(** [localStorage] *)
Abbreviation Storage := (gmap jsstring jsstring).

Definition getItem (k : jsstring) (ls : Storage) : option jsstring :=
  ls !! k.
Definition setItem (k v : jsstring) (ls : Storage) : Storage :=
  <[k := v]> ls.
Definition removeItem (k : jsstring) (ls : Storage) : Storage :=
  delete k ls.

(** [localStorage.getItem(k) || fallback] *)
Definition getItem_or (k fallback : jsstring) (ls : Storage) : jsstring :=
  match getItem k ls with
  | Some v => if JsString.truthy v then v else fallback
  | None => fallback
  end.

(** The refs of the component, the browser's [localStorage] and
    [window.location.origin]. [outputText] is declared a string ref but is
    assigned a value of type [any], so it holds a [value]. *)
Record state : Type := {
  inputText : jsstring;
  outputText : value;
  isLoading : bool;
  apiKey : jsstring;
  selectedModel : jsstring;
  modelFilter : jsstring;
  showModelDropdown : bool;
  availableModels : list Model;
  isLoadingModels : bool;
  showSettings : bool;
  systemPrompt : jsstring;
  localStorage : Storage;
  origin : jsstring
}.

(** [ref.value = x] *)
Definition set_inputText (x : jsstring) (st : state) : state :=
  {| inputText := x;
     outputText := outputText st;
     isLoading := isLoading st;
     apiKey := apiKey st;
     selectedModel := selectedModel st;
     modelFilter := modelFilter st;
     showModelDropdown := showModelDropdown st;
     availableModels := availableModels st;
     isLoadingModels := isLoadingModels st;
     showSettings := showSettings st;
     systemPrompt := systemPrompt st;
     localStorage := localStorage st;
     origin := origin st |}.

Definition set_outputText (x : value) (st : state) : state :=
  {| inputText := inputText st;
     outputText := x;
     isLoading := isLoading st;
     apiKey := apiKey st;
     selectedModel := selectedModel st;
     modelFilter := modelFilter st;
     showModelDropdown := showModelDropdown st;
     availableModels := availableModels st;
     isLoadingModels := isLoadingModels st;
     showSettings := showSettings st;
     systemPrompt := systemPrompt st;
     localStorage := localStorage st;
     origin := origin st |}.

Definition set_isLoading (x : bool) (st : state) : state :=
  {| inputText := inputText st;
     outputText := outputText st;
     isLoading := x;
     apiKey := apiKey st;
     selectedModel := selectedModel st;
     modelFilter := modelFilter st;
     showModelDropdown := showModelDropdown st;
     availableModels := availableModels st;
     isLoadingModels := isLoadingModels st;
     showSettings := showSettings st;
     systemPrompt := systemPrompt st;
     localStorage := localStorage st;
     origin := origin st |}.

Definition set_apiKey (x : jsstring) (st : state) : state :=
  {| inputText := inputText st;
     outputText := outputText st;
     isLoading := isLoading st;
     apiKey := x;
     selectedModel := selectedModel st;
     modelFilter := modelFilter st;
     showModelDropdown := showModelDropdown st;
     availableModels := availableModels st;
     isLoadingModels := isLoadingModels st;
     showSettings := showSettings st;
     systemPrompt := systemPrompt st;
     localStorage := localStorage st;
     origin := origin st |}.

Definition set_selectedModel (x : jsstring) (st : state) : state :=
  {| inputText := inputText st;
     outputText := outputText st;
     isLoading := isLoading st;
     apiKey := apiKey st;
     selectedModel := x;
     modelFilter := modelFilter st;
     showModelDropdown := showModelDropdown st;
     availableModels := availableModels st;
     isLoadingModels := isLoadingModels st;
     showSettings := showSettings st;
     systemPrompt := systemPrompt st;
     localStorage := localStorage st;
     origin := origin st |}.

Definition set_modelFilter (x : jsstring) (st : state) : state :=
  {| inputText := inputText st;
     outputText := outputText st;
     isLoading := isLoading st;
     apiKey := apiKey st;
     selectedModel := selectedModel st;
     modelFilter := x;
     showModelDropdown := showModelDropdown st;
     availableModels := availableModels st;
     isLoadingModels := isLoadingModels st;
     showSettings := showSettings st;
     systemPrompt := systemPrompt st;
     localStorage := localStorage st;
     origin := origin st |}.

Definition set_showModelDropdown (x : bool) (st : state) : state :=
  {| inputText := inputText st;
     outputText := outputText st;
     isLoading := isLoading st;
     apiKey := apiKey st;
     selectedModel := selectedModel st;
     modelFilter := modelFilter st;
     showModelDropdown := x;
     availableModels := availableModels st;
     isLoadingModels := isLoadingModels st;
     showSettings := showSettings st;
     systemPrompt := systemPrompt st;
     localStorage := localStorage st;
     origin := origin st |}.

Definition set_availableModels (x : list Model) (st : state) : state :=
  {| inputText := inputText st;
     outputText := outputText st;
     isLoading := isLoading st;
     apiKey := apiKey st;
     selectedModel := selectedModel st;
     modelFilter := modelFilter st;
     showModelDropdown := showModelDropdown st;
     availableModels := x;
     isLoadingModels := isLoadingModels st;
     showSettings := showSettings st;
     systemPrompt := systemPrompt st;
     localStorage := localStorage st;
     origin := origin st |}.

Definition set_isLoadingModels (x : bool) (st : state) : state :=
  {| inputText := inputText st;
     outputText := outputText st;
     isLoading := isLoading st;
     apiKey := apiKey st;
     selectedModel := selectedModel st;
     modelFilter := modelFilter st;
     showModelDropdown := showModelDropdown st;
     availableModels := availableModels st;
     isLoadingModels := x;
     showSettings := showSettings st;
     systemPrompt := systemPrompt st;
     localStorage := localStorage st;
     origin := origin st |}.

Definition set_showSettings (x : bool) (st : state) : state :=
  {| inputText := inputText st;
     outputText := outputText st;
     isLoading := isLoading st;
     apiKey := apiKey st;
     selectedModel := selectedModel st;
     modelFilter := modelFilter st;
     showModelDropdown := showModelDropdown st;
     availableModels := availableModels st;
     isLoadingModels := isLoadingModels st;
     showSettings := x;
     systemPrompt := systemPrompt st;
     localStorage := localStorage st;
     origin := origin st |}.

Definition set_systemPrompt (x : jsstring) (st : state) : state :=
  {| inputText := inputText st;
     outputText := outputText st;
     isLoading := isLoading st;
     apiKey := apiKey st;
     selectedModel := selectedModel st;
     modelFilter := modelFilter st;
     showModelDropdown := showModelDropdown st;
     availableModels := availableModels st;
     isLoadingModels := isLoadingModels st;
     showSettings := showSettings st;
     systemPrompt := x;
     localStorage := localStorage st;
     origin := origin st |}.

Definition set_localStorage (x : Storage) (st : state) : state :=
  {| inputText := inputText st;
     outputText := outputText st;
     isLoading := isLoading st;
     apiKey := apiKey st;
     selectedModel := selectedModel st;
     modelFilter := modelFilter st;
     showModelDropdown := showModelDropdown st;
     availableModels := availableModels st;
     isLoadingModels := isLoadingModels st;
     showSettings := showSettings st;
     systemPrompt := systemPrompt st;
     localStorage := x;
     origin := origin st |}.

(** ** Constants of the script *)

Definition KEY_API_KEY : jsstring := js "openrouter_api_key".
Definition KEY_SELECTED_MODEL : jsstring := js "selected_model".
Definition KEY_SYSTEM_PROMPT : jsstring := js "system_prompt".

Definition DEFAULT_MODEL : jsstring := js "openai/gpt-4o-mini".

Definition INPUT_TOKEN : jsstring := js "{input}".

Definition defaultPrompt : jsstring :=
  js "Проанализируй следующий текст и создай описание в стиле wiki в одном предложении. Каждый элемент должен содержать название, краткое описание и ссылку (если есть).
Формат ответа:
- Название — краткое описание. ссылка

Пример:
- Ace — голосовой помощник на базе собственной модели, способный управлять компьютером с высокой скоростью и точностью выполнения команд. https://generalagents.com/ace/

Текст для анализа: {input}".

Definition MODELS_URL : jsstring := js "https://openrouter.ai/api/v1/models".
Definition COMPLETIONS_URL : jsstring :=
  js "https://openrouter.ai/api/v1/chat/completions".

Definition VALIDATION_MESSAGE : jsstring :=
  js "Пожалуйста, введите текст и API ключ".

Definition FAILURE_MESSAGE : jsstring :=
  js "Ошибка при генерации описания. Проверьте API ключ и попробуйте снова.".

Definition MODELS_ERROR_LABEL : jsstring := js "Ошибка загрузки моделей:".
Definition ERROR_LABEL : jsstring := js "Error:".

(** The catalog of the [catch] branch of [loadModels]. *)
Definition fallbackModels : list Model :=
  [ {| id := VStr (js "openai/gpt-4o-mini");
       name := VStr (js "GPT-4o Mini");
       description := VUndefined;
       context_length := VUndefined;
       pricing := VUndefined |};
    {| id := VStr (js "anthropic/claude-sonnet-4");
       name := VStr (js "Claude Sonnet 4");
       description := VUndefined;
       context_length := VUndefined;
       pricing := VUndefined |} ].

(** The refs as the script initialises them, over a given store. *)
Definition initial_state (ls : Storage) (org : jsstring) : state :=
  {| inputText := [];
     outputText := VStr [];
     isLoading := false;
     apiKey := getItem_or KEY_API_KEY [] ls;
     selectedModel := getItem_or KEY_SELECTED_MODEL DEFAULT_MODEL ls;
     modelFilter := [];
     showModelDropdown := false;
     availableModels := [];
     isLoadingModels := false;
     showSettings := false;
     systemPrompt := getItem_or KEY_SYSTEM_PROMPT defaultPrompt ls;
     localStorage := ls;
     origin := org |}.

(** ** Settings store *)

Definition saveApiKey (key : jsstring) (ls : Storage) : Storage :=
  if JsString.truthy (JsString.trim key) then setItem KEY_API_KEY key ls
  else removeItem KEY_API_KEY ls.

Definition saveSelectedModel (modelId : jsstring) (ls : Storage) : Storage :=
  setItem KEY_SELECTED_MODEL modelId ls.

Definition saveSystemPrompt (prompt : jsstring) (ls : Storage) : Storage :=
  setItem KEY_SYSTEM_PROMPT prompt ls.

(** An assignment to a watched ref: the watcher runs when the value
    changed. *)
Definition assign_apiKey (newKey : jsstring) (st : state) : state :=
  let st1 := set_apiKey newKey st in
  if decide (newKey = apiKey st) then st1
  else set_localStorage (saveApiKey newKey (localStorage st1)) st1.

Definition assign_selectedModel (newModel : jsstring) (st : state) : state :=
  let st1 := set_selectedModel newModel st in
  if decide (newModel = selectedModel st) then st1
  else set_localStorage (saveSelectedModel newModel (localStorage st1)) st1.

Definition assign_systemPrompt (newPrompt : jsstring) (st : state) : state :=
  let st1 := set_systemPrompt newPrompt st in
  if decide (newPrompt = systemPrompt st) then st1
  else set_localStorage (saveSystemPrompt newPrompt (localStorage st1)) st1.

Definition resetPromptToDefault (st : state) : state :=
  let st1 := assign_systemPrompt defaultPrompt st in
  set_localStorage (saveSystemPrompt defaultPrompt (localStorage st1)) st1.

Definition selectModel (modelId : jsstring) (st : state) : state :=
  let st1 := assign_selectedModel modelId st in
  let st2 := set_showModelDropdown false st1 in
  let st3 := set_modelFilter [] st2 in
  set_localStorage (saveSelectedModel modelId (localStorage st3)) st3.

(** ** Network and user-visible effects *)

Record request : Type := {
  url : jsstring;
  method : jsstring;
  headers : list (jsstring * jsstring);
  (** the value handed to [JSON.stringify], when there is a body *)
  body : option value
}.

(** How an awaited [fetch] ends: the promise rejects (the network failed,
    or the browser refused the request), or a response with a status
    arrives, whose [json()] gives a parsed value or rejects
    ([None]). *)
Inductive fetch_outcome : Type :=
| FetchRejected
| FetchResponse (status : N) (parsed : option value).

(** [response.ok] *)
Definition ok (status : N) : bool := (200 <=? status) && (status <=? 299).

Inductive event : Type :=
| Alert (message : jsstring)
| ConsoleError (label : jsstring) (e : error)
| Fetch (req : request).

(** An [async] function runs up to its first [await] and gives control
    back; it is resumed with the outcome of the awaited request, on the
    state as it is then. [Returned] is a run that ends without awaiting.
    The second [await], of [response.json()], is folded into the outcome:
    the script touches no ref between the two. *)
Inductive run : Type :=
| Returned (log : list event) (st : state)
| Awaiting (log : list event) (st : state) (req : request)
    (resume : fetch_outcome -> state -> list event * state).

(** A run to the end against a network that answers [net], with nothing
    else scheduled in between. *)
Definition complete (net : request -> fetch_outcome) (r : run)
    : list event * state :=
  match r with
  | Returned log st => (log, st)
  | Awaiting log st req resume =>
      let '(log', st') := resume (net req) st in
      (log ++ Fetch req :: log', st')
  end.

(** ** Model catalog: [loadModels] *)

Definition models_request : request :=
  {| url := MODELS_URL;
     method := js "GET";
     headers := [(js "Content-Type", js "application/json")];
     body := None |}.

(** The callback of [data.data.map]; [model.name || model.id] reads the
    id only when the name is falsy. *)
Definition map_entry (model : value) : completion Model :=
  model_id ← Get model (js "id");
  model_name ← Get model (js "name");
  shown_name ←
    (if ToBoolean model_name then Normal model_name
     else Get model (js "id"));
  model_description ← Get model (js "description");
  model_context_length ← Get model (js "context_length");
  model_pricing ← Get model (js "pricing");
  Normal {| id := model_id;
            name := shown_name;
            description := model_description;
            context_length := model_context_length;
            pricing := model_pricing |}.

(** The [try] block: [Normal None] is the path that skips the [if]. *)
Definition loadModels_try (r : fetch_outcome)
    : completion (option (list Model)) :=
  match r with
  | FetchRejected => Throw NetworkError
  | FetchResponse status parsed =>
      if ok status then
        match parsed with
        | None => Throw SyntaxError
        | Some data =>
            entries ← Get data (js "data");
            models ← call_map entries map_entry;
            Normal (Some models)
        end
      else Normal None
  end.

Definition loadModels_resume (r : fetch_outcome) (st : state)
    : list event * state :=
  let '(log, st1) :=
    match loadModels_try r with
    | Normal (Some models) => ([], set_availableModels models st)
    | Normal None => ([], st)
    | Throw e =>
        ([ConsoleError MODELS_ERROR_LABEL e],
         set_availableModels fallbackModels st)
    end in
  (log, set_isLoadingModels false st1).

Definition loadModels (st : state) : run :=
  let st1 := set_isLoadingModels true st in
  Awaiting [] st1 models_request loadModels_resume.

(** ** Model filter: the computed [filteredModels] *)

Section Filter.

(** [String.prototype.toLowerCase]: the Unicode case mapping is the
    engine's table. *)
Variable toLowerCase : jsstring -> jsstring.

(** [v.toLowerCase()]: only a string has the method. *)
Definition call_toLowerCase (v : value) : completion jsstring :=
  match v with
  | VStr s => Normal (toLowerCase s)
  | _ => Throw TypeError
  end.

(** The callback of [availableModels.value.filter], with the truth value
    [filter] takes of its result. *)
Definition matches_filter (filter : jsstring) (model : Model)
    : completion bool :=
  lowered_name ← call_toLowerCase (name model);
  if JsString.includes lowered_name filter then Normal true
  else
    lowered_id ← call_toLowerCase (id model);
    if JsString.includes lowered_id filter then Normal true
    else if ToBoolean (description model) then
      lowered_description ← call_toLowerCase (description model);
      Normal (JsString.includes lowered_description filter)
    else Normal false.

Definition filter_models (models : list Model) (modelFilter : jsstring)
    : completion (list Model) :=
  if negb (JsString.truthy modelFilter) then Normal models
  else
    let filter := toLowerCase modelFilter in
    array_filter (matches_filter filter) models.

Definition filteredModels (st : state) : completion (list Model) :=
  filter_models (availableModels st) (modelFilter st).

(** A field holds a string that contains [f], case aside: both are
    lowered and compared as the callback does. *)
Definition contains_ci (f : jsstring) (field : value) : Prop :=
  exists s, field = VStr s
            /\ JsString.includes (toLowerCase s) (toLowerCase f) = true.

End Filter.

(** ** Completion client: [generateDescription] *)

Definition render_prompt (st : state) : jsstring :=
  JsString.replace (systemPrompt st) INPUT_TOKEN (inputText st).

Definition completion_request (st : state) : request :=
  {| url := COMPLETIONS_URL;
     method := js "POST";
     headers :=
       [ (js "Authorization", js "Bearer " ++ apiKey st);
         (js "Content-Type", js "application/json");
         (js "HTTP-Referer", origin st);
         (js "X-Title", js "Link Description Generator") ];
     body :=
       Some (VObj
         [ (js "model", VStr (selectedModel st));
           (js "messages",
            VArr [ VObj [ (js "role", VStr (js "user"));
                          (js "content", VStr (render_prompt st)) ] ]) ]) |}.

(** [data.choices[0].message] and [data.choices[0].message.content] *)
Definition first_choice_message (data : value) : completion value :=
  choices ← Get data (js "choices");
  choice ← Get0 choices;
  Get choice (js "message").

Definition first_choice_content (data : value) : completion value :=
  message ← first_choice_message data;
  Get message (js "content").

(** The part of the [try] block after the [await]. *)
Definition generateDescription_try (r : fetch_outcome) : completion value :=
  match r with
  | FetchRejected => Throw NetworkError
  | FetchResponse status parsed =>
      if negb (ok status) then Throw (HttpError status)
      else
        match parsed with
        | None => Throw SyntaxError
        | Some data => first_choice_content data
        end
  end.

Definition generateDescription_resume (r : fetch_outcome) (st : state)
    : list event * state :=
  let '(log, st1) :=
    match generateDescription_try r with
    | Normal content => ([], set_outputText content st)
    | Throw e =>
        ([ConsoleError ERROR_LABEL e],
         set_outputText (VStr FAILURE_MESSAGE) st)
    end in
  (log, set_isLoading false st1).

Definition generateDescription (st : state) : run :=
  if negb (JsString.truthy (JsString.trim (inputText st)))
     || negb (JsString.truthy (JsString.trim (apiKey st)))
  then Returned [Alert VALIDATION_MESSAGE] st
  else
    let st1 := set_isLoading true st in
    let st2 := set_outputText (VStr []) st1 in
    Awaiting [] st2 (completion_request st2) generateDescription_resume.

(** ** Vocabulary of the statements *)

(** The guard of [generateDescription] lets the run through. *)
Definition passes_validation (st : state) : Prop :=
  JsString.trim (inputText st) <> [] /\ JsString.trim (apiKey st) <> [].

(** The state in which a validated run awaits its response. *)
Definition loading_state (st : state) : state :=
  set_outputText (VStr []) (set_isLoading true st).

(** Number of positions of [s] at which [search] occurs. *)
Fixpoint occurrences (s search : jsstring) : nat :=
  (if JsString.startsWith s search then 1 else 0)
  + match s with
    | [] => 0
    | _ :: rest => occurrences rest search
    end.



(** ** Sample inputs *)

Definition sample_origin : jsstring := js "http://localhost:5173".

(** A session with nothing stored, after the user typed a key and a
    text. *)
Definition sample_state : state :=
  set_inputText (js "Ace https://generalagents.com/ace/")
    (assign_apiKey (js "sk-123") (initial_state ∅ sample_origin)).

(** The same session with a text of blanks only. *)
Definition blank_input_state : state :=
  set_inputText (js "   ") sample_state.

(** The same session with a text that has dollar signs in it. *)
Definition dollar_input_state : state :=
  set_inputText (js "$$") sample_state.

(** [{choices:[{message:{content:"- A — b. http://x"}}]}] *)
Definition sample_completion : value :=
  VObj [ (js "choices",
          VArr [ VObj [ (js "message",
                         VObj [ (js "content",
                                 VStr (js "- A — b. http://x")) ]) ] ]) ].

(** [{id:"openai/gpt-4o"}], an entry of the catalog without a name. *)
Definition sample_entry : value :=
  VObj [ (js "id", VStr (js "openai/gpt-4o")) ].

(** [toLowerCase] on strings of ASCII letters. *)
Definition ascii_toLowerCase (s : jsstring) : jsstring :=
  map (fun c => if (0x41 <=? c) && (c <=? 0x5A) then c + 0x20 else c) s.

(** ** The rest of the script and the template's conditions *)

Definition openSettings (st : state) : state := set_showSettings true st.

Definition closeSettings (st : state) : state := set_showSettings false st.

(** [v === s] for a string [s]: no conversion, a value that is not a string
    is never equal. *)
Definition strict_equals_string (v : value) (s : jsstring) : bool :=
  match v with
  | VStr s' => bool_decide (s' = s)
  | _ => false
  end.

(** [availableModels.value.find(m => m.id === selectedModel.value)], then
    the name of the model found, or the selected id itself. *)
Definition getSelectedModelName (st : state) : value :=
  match List.find (fun m => strict_equals_string (id m) (selectedModel st))
          (availableModels st) with
  | Some model => name model
  | None => VStr (selectedModel st)
  end.

(** The document's click listener; [inside] tells whether the target has an
    ancestor of class [model-dropdown] ([target.closest] is not null). *)
Definition closeDropdown (inside : bool) (st : state) : state :=
  if negb inside then set_modelFilter [] (set_showModelDropdown false st)
  else st.

(** [@click="showModelDropdown = !showModelDropdown"] *)
Definition toggleModelDropdown (st : state) : state :=
  set_showModelDropdown (negb (showModelDropdown st)) st.

(** [:disabled] of the generate button. *)
Definition generate_disabled (st : state) : bool :=
  isLoading st
  || negb (JsString.truthy (JsString.trim (inputText st)))
  || negb (JsString.truthy (JsString.trim (apiKey st))).



(** The component set up again over the store as it is now: what a reload
    of the page starts from. *)
Definition reload (st : state) : state :=
  initial_state (localStorage st) (origin st).

(** ** Sessions

    What the template lets the user do, and what the event loop delivers:
    the [v-model] bindings, the click handlers, and the two halves of each
    [async] function. [PickModel modelId] is a click on an option whose id
    is the string [modelId], the type [selectModel] declares for its
    parameter; a click on an option whose id is not a string (which the
    loader lets through from an answer that has one) is not among the
    actions, so the sessions are those in which every option picked has a
    string id. *)
Inductive action : Type :=
| TypeInput (text : jsstring)
| TypeApiKey (key : jsstring)
| TypeFilter (f : jsstring)
| TypePrompt (prompt : jsstring)
| ToggleDropdown
| PickModel (modelId : jsstring)
| ClickDocument (inside : bool)
| OpenSettings
| CloseSettings
| ResetPrompt
| Generate
| GenerateResumed (r : fetch_outcome)
| LoadModels
| LoadModelsResumed (r : fetch_outcome).

(** The state a run leaves when it gives control back. *)
Definition state_of (r : run) : state :=
  match r with
  | Returned _ st => st
  | Awaiting _ st _ _ => st
  end.

Definition perform (a : action) (st : state) : state :=
  match a with
  | TypeInput text => set_inputText text st
  | TypeApiKey key => assign_apiKey key st
  | TypeFilter f => set_modelFilter f st
  | TypePrompt prompt => assign_systemPrompt prompt st
  | ToggleDropdown => toggleModelDropdown st
  | PickModel modelId => selectModel modelId st
  | ClickDocument inside => closeDropdown inside st
  | OpenSettings => openSettings st
  | CloseSettings => closeSettings st
  | ResetPrompt => resetPromptToDefault st
  | Generate => state_of (generateDescription st)
  | GenerateResumed r => (generateDescription_resume r st).2
  | LoadModels => state_of (loadModels st)
  | LoadModelsResumed r => (loadModels_resume r st).2
  end.

Definition perform_all (actions : list action) (st : state) : state :=
  foldl (fun st a => perform a st) st actions.

(** A session with its count of completion requests that are out. A click
    on the generate button reaches the handler only while the button is
    enabled, and a response can only arrive for a request that is out. *)
Record session : Type := {
  ui : state;
  in_flight : nat
}.

Definition session_perform (a : action) (s : session) : option session :=
  match a with
  | Generate =>
      if generate_disabled (ui s) then None
      else Some {| ui := perform Generate (ui s);
                   in_flight := S (in_flight s) |}
  | GenerateResumed r =>
      match in_flight s with
      | O => None
      | S n => Some {| ui := perform a (ui s); in_flight := n |}
      end
  | _ => Some {| ui := perform a (ui s); in_flight := in_flight s |}
  end.

Fixpoint session_run (actions : list action) (s : session)
    : option session :=
  match actions with
  | [] => Some s
  | a :: rest =>
      match session_perform a s with
      | Some s' => session_run rest s'
      | None => None
      end
  end.

Definition initial_session (ls : Storage) (org : jsstring) : session :=
  {| ui := initial_state ls org; in_flight := 0 |}.

(** ** More vocabulary *)

(** A string of white space and line terminators only. *)
Definition only_blanks (s : jsstring) : bool := forallb JsString.is_trimmed s.


(** The three settings read back from the store equal the refs, each unless
    the ref holds a value the store never keeps: a key of blanks, an empty
    model id, an empty prompt. *)
Definition settings_persisted (st : state) : Prop :=
  (apiKey (reload st) = apiKey st \/ JsString.trim (apiKey st) = [])
  /\ (selectedModel (reload st) = selectedModel st \/ selectedModel st = [])
  /\ (systemPrompt (reload st) = systemPrompt st \/ systemPrompt st = []).

(** A model with a string id that is not empty has a truthy name. *)
Definition names_shown (models : list Model) : Prop :=
  Forall (fun m => forall i, id m = VStr i -> i <> [] ->
                             ToBoolean (name m) = true) models.

(** The shape of a parsed object: [v] is an object whose member [k] is
    [x], the first under that key. This is read off the value itself, not
    through the property reads of the program. *)
Inductive has_property : value -> jsstring -> value -> Prop :=
| has_property_intro (before after : list (jsstring * value))
    (k : jsstring) (x : value) :
    k ∉ before.*1 ->
    has_property (VObj (before ++ (k, x) :: after)) k x.





(** A catalog answer all of whose entries, if it is one that gets mapped,
    have a string for id; and a session all of whose catalog answers are
    such. *)
Definition answer_string_ids (r : fetch_outcome) : Prop :=
  forall status data entries,
    r = FetchResponse status (Some data) ->
    Get data (js "data") = Normal (VArr entries) ->
    Forall (fun entry => exists i, Get entry (js "id") = Normal (VStr i))
      entries.

Definition answers_string_ids (actions : list action) : Prop :=
  Forall (fun a => match a with
                   | LoadModelsResumed r => answer_string_ids r
                   | _ => True
                   end) actions.

(** The request count and the loading flag agree. *)
Definition flag_counts (s : session) : Prop :=
  (isLoading (ui s) = true /\ in_flight s = 1%nat)
  \/ (isLoading (ui s) = false /\ in_flight s = 0%nat).

Section FilterVocabulary.

Variable toLowerCase : jsstring -> jsstring.

(** The test of the filter's callback on a typed descriptor, as a
    boolean. *)
Definition lowered_includes (filter : jsstring) (field : value) : bool :=
  match field with
  | VStr s => JsString.includes (toLowerCase s) filter
  | _ => false
  end.

Definition kept (filter : jsstring) (m : Model) : bool :=
  lowered_includes filter (name m)
  || lowered_includes filter (id m)
  || (ToBoolean (description m) && lowered_includes filter (description m)).

End FilterVocabulary.

(** ** More sample inputs *)


(** The sample session with a prompt that has no token. *)
Definition tokenless_state : state :=
  assign_systemPrompt (js "Summarise the links.") sample_state.

(** [{id:"a/b", name:"AB", description:"d"}] *)
Definition sample_full_entry : value :=
  VObj [ (js "id", VStr (js "a/b"));
         (js "name", VStr (js "AB"));
         (js "description", VStr (js "d")) ].

(** [{data:[{id:"openai/gpt-4o"}, {id:"a/b", ...}]}] and the same catalog
    with a [null] after its first entry. *)
Definition sample_catalog : value :=
  VObj [ (js "data", VArr [sample_entry; sample_full_entry]) ].

Definition sample_catalog_with_null : value :=
  VObj [ (js "data", VArr [sample_entry; VNull; sample_full_entry]) ].

(** What [{}] is mapped to: a descriptor without id and name. *)
Definition nameless_model : Model :=
  {| id := VUndefined;
     name := VUndefined;
     description := VUndefined;
     context_length := VUndefined;
     pricing := VUndefined |}.

(** The sample session once the fallback catalog is in place. *)
Definition fallback_state : state :=
  set_availableModels fallbackModels sample_state.

(** A session that types a text and a key and clicks the button, and one
    that loads the sample catalog and picks its first model. *)
Definition generate_actions : list action :=
  [ TypeInput (js "Ace https://generalagents.com/ace/");
    TypeApiKey (js "sk-123");
    Generate ].

Definition catalog_actions : list action :=
  [ LoadModels;
    LoadModelsResumed (FetchResponse 200 (Some sample_catalog));
    PickModel (js "openai/gpt-4o") ].

(** * Properties *)

(** ** Built-ins *)

Lemma startsWith_nil (s : jsstring) : JsString.startsWith s [] = true.
Proof. by destruct s. Qed.

Lemma includes_nil (s : jsstring) : JsString.includes s [] = true.
Proof.
  unfold JsString.includes, JsString.indexOf.
  destruct s; simpl; done.
Qed.

Example utf16_of_literal :
  js "- A — b" = [0x2D; 0x20; 0x41; 0x20; 0x2014; 0x20; 0x62].
Proof. reflexivity. Qed.

Example trim_blanks : JsString.trim (js "  sk-123 ") = js "sk-123".
Proof. reflexivity. Qed.

(** The replacement patterns, on [x{input}y]. *)
Example replace_plain :
  JsString.replace (js "x{input}y") (js "{input}") (js "text") = js "xtexty".
Proof. reflexivity. Qed.

Example replace_dollar_dollar :
  JsString.replace (js "x{input}y") (js "{input}") (js "$$") = js "x$y".
Proof. reflexivity. Qed.

Example replace_dollar_ampersand :
  JsString.replace (js "x{input}y") (js "{input}") (js "$&")
  = js "x{input}y".
Proof. reflexivity. Qed.

Example replace_dollar_grave :
  JsString.replace (js "x{input}y") (js "{input}") (js "$`") = js "xxy".
Proof. reflexivity. Qed.

Example replace_dollar_apostrophe :
  JsString.replace (js "x{input}y") (js "{input}") (js "$'") = js "xyy".
Proof. reflexivity. Qed.

Example replace_dollar_digit :
  JsString.replace (js "x{input}y") (js "{input}") (js "$1 $00 $")
  = js "x$1 $00 $y".
Proof. reflexivity. Qed.

Example replace_second_occurrence_kept :
  JsString.replace (js "{input} {input}") (js "{input}") (js "t")
  = js "t {input}".
Proof. reflexivity. Qed.

Lemma startsWith_app (search post : jsstring) :
  JsString.startsWith (search ++ post) search = true.
Proof.
  induction search as [|c search IH]; simpl; [apply startsWith_nil|].
  by rewrite N.eqb_refl.
Qed.

Lemma startsWith_inv (s search : jsstring) :
  JsString.startsWith s search = true ->
  s = search ++ drop (length search) s.
Proof.
  revert s. induction search as [|c search IH]; intros s; simpl.
  - by destruct s.
  - destruct s as [|b s]; [done|]. simpl.
    intros [Hc Hrest]%andb_true_iff.
    apply N.eqb_eq in Hc. subst. f_equal. by apply IH.
Qed.

(** [indexOf] finds the first position at which [search] occurs. *)
Lemma indexOf_from_first (s search : jsstring) (k j : nat) :
  (j <= length s)%nat ->
  JsString.startsWith (drop j s) search = true ->
  exists i,
    JsString.indexOf_from s search k = Some (k + i)%nat
    /\ (i <= j)%nat
    /\ JsString.startsWith (drop i s) search = true.
Proof.
  revert k j. induction s as [|c s IH]; intros k j Hj Hocc.
  - assert (j = 0%nat) as -> by (simpl in Hj; lia).
    simpl in *. rewrite Hocc. exists 0%nat.
    rewrite Nat.add_0_r. by repeat split.
  - cbn [JsString.indexOf_from].
    destruct (JsString.startsWith (c :: s) search) eqn:Hhere.
    + exists 0%nat. rewrite Nat.add_0_r.
      repeat split; [lia | done].
    + destruct j as [|j]; [rewrite drop_0 in Hocc; congruence|].
      simpl in Hj, Hocc.
      destruct (IH (S k) j ltac:(lia) Hocc) as (i & Hfound & Hle & Hi).
      exists (S i). rewrite Hfound. simpl.
      repeat split; [f_equal; lia | lia | done].
Qed.

Lemma occurrences_pos (s search : jsstring) (j : nat) :
  (j <= length s)%nat ->
  JsString.startsWith (drop j s) search = true ->
  (1 <= occurrences s search)%nat.
Proof.
  revert j. induction s as [|c s IH]; intros j Hj Hocc.
  - assert (j = 0%nat) as -> by (simpl in Hj; lia).
    simpl in *. rewrite Hocc. lia.
  - destruct j as [|j]; cbn [occurrences].
    + rewrite drop_0 in Hocc. rewrite Hocc. lia.
    + simpl in Hj, Hocc. specialize (IH j ltac:(lia) Hocc). lia.
Qed.

Lemma occurrences_two (s search : jsstring) (i j : nat) :
  (i < j)%nat -> (j <= length s)%nat ->
  JsString.startsWith (drop i s) search = true ->
  JsString.startsWith (drop j s) search = true ->
  (2 <= occurrences s search)%nat.
Proof.
  revert i j. induction s as [|c s IH]; intros i j Hij Hj Hi Hocc.
  - simpl in Hj. lia.
  - destruct j as [|j]; [lia|]. simpl in Hj, Hocc.
    destruct i as [|i]; cbn [occurrences].
    + rewrite drop_0 in Hi. rewrite Hi.
      pose proof (occurrences_pos s search j ltac:(lia) Hocc). lia.
    + simpl in Hi.
      pose proof (IH i j ltac:(lia) ltac:(lia) Hi Hocc). lia.
Qed.

Lemma GetSubstitution_literal (matched str : jsstring) (position : nat)
    (template : jsstring) :
  JsString.DOLLAR ∉ template ->
  JsString.GetSubstitution matched str position template = template.
Proof.
  induction template as [|c r IH]; intros Hfree; [done|].
  apply not_elem_of_cons in Hfree as [Hc Hr].
  cbn [JsString.GetSubstitution].
  destruct (c =? JsString.DOLLAR) eqn:Hd.
  - apply N.eqb_eq in Hd. congruence.
  - f_equal. by apply IH.
Qed.

(** What holds of the rendering: a template with one occurrence of the
    token, and an input text free of dollar signs, give the template with
    the token replaced by the text. *)
Lemma replace_single_literal (pre post search t : jsstring) :
  occurrences (pre ++ search ++ post) search = 1%nat ->
  JsString.DOLLAR ∉ t ->
  JsString.replace (pre ++ search ++ post) search t = pre ++ t ++ post.
Proof.
  intros Hone Hfree. set (s := pre ++ search ++ post) in *.
  assert (Hlen : (length pre <= length s)%nat).
  { unfold s. rewrite length_app. lia. }
  assert (Hat : JsString.startsWith (drop (length pre) s) search = true).
  { unfold s. rewrite drop_app_length. apply startsWith_app. }
  destruct (indexOf_from_first s search 0 (length pre) Hlen Hat)
    as (i & Hfound & Hle & Hi).
  assert (i = length pre) as ->.
  { destruct (decide (i = length pre)) as [|Hne]; [done|].
    pose proof (occurrences_two s search i (length pre)
                  ltac:(lia) Hlen Hi Hat). lia. }
  unfold JsString.replace, JsString.indexOf. rewrite Hfound. simpl.
  rewrite GetSubstitution_literal by done.
  unfold s. rewrite take_app_length.
  rewrite <- drop_drop, drop_app_length, drop_app_length. done.
Qed.

(** Only the first occurrence is replaced: whatever follows it, further
    occurrences included, is kept as it is. *)
Lemma replace_first_only (search post t : jsstring) :
  JsString.replace (search ++ post) search t
  = JsString.GetSubstitution search (search ++ post) 0 t ++ post.
Proof.
  unfold JsString.replace, JsString.indexOf.
  assert (Hfound : JsString.indexOf_from (search ++ post) search 0
                   = Some 0%nat).
  { destruct (search ++ post) eqn:Hs; cbn [JsString.indexOf_from];
      rewrite <- Hs, startsWith_app; done. }
  rewrite Hfound. simpl. by rewrite drop_app_length.
Qed.

(** ** Model filter *)

Section FilterProperties.

Variable toLowerCase : jsstring -> jsstring.

Lemma array_filter_spec {A} (p : A -> completion bool) (xs ys : list A) :
  array_filter p xs = Normal ys ->
  sublist ys xs /\ Forall (fun x => p x = Normal true) ys.
Proof.
  revert ys. induction xs as [|x xs IH]; intros ys; simpl.
  - intros [= <-]. split; constructor.
  - destruct (p x) as [keep|e] eqn:Hp; simpl; [|done].
    destruct (array_filter p xs) as [zs|e] eqn:Hrec; simpl; [|done].
    intros [= <-]. destruct (IH zs eq_refl) as [Hsub Hall].
    destruct keep.
    + split; [by apply sublist_skip | by constructor].
    + split; [by apply sublist_cons | done].
Qed.

Lemma matches_filter_typed (filter : jsstring) (m : Model) :
  Model_typed m ->
  exists b, matches_filter toLowerCase filter m = Normal b.
Proof.
  unfold Model_typed, matches_filter. destruct m as [i n d c p]; simpl.
  destruct i as [| | | |i| |]; try done.
  destruct n as [| | | |n| |]; try done. simpl.
  destruct (JsString.includes (toLowerCase n) filter); [by eauto|].
  destruct (JsString.includes (toLowerCase i) filter); [by eauto|].
  destruct d as [| | | |d| |]; try done; simpl; [by eauto|].
  destruct (JsString.truthy d); simpl; by eauto.
Qed.

Lemma array_filter_total {A} (p : A -> completion bool) (xs : list A) :
  Forall (fun x => exists b, p x = Normal b) xs ->
  exists ys, array_filter p xs = Normal ys.
Proof.
  induction 1 as [|x xs [b Hb] _ [ys IH]]; simpl; [by eexists|].
  rewrite Hb, IH. simpl. by eexists.
Qed.

Lemma matches_filter_true (f : jsstring) (m : Model) :
  matches_filter toLowerCase (toLowerCase f) m = Normal true ->
  contains_ci toLowerCase f (name m)
  \/ contains_ci toLowerCase f (id m)
  \/ contains_ci toLowerCase f (description m).
Proof.
  unfold matches_filter, contains_ci, call_toLowerCase.
  destruct (name m) as [| | | |n| |]; simpl; try done.
  destruct (JsString.includes (toLowerCase n) _) eqn:Hn; [by eauto|].
  destruct (id m) as [| | | |i| |]; simpl; try done.
  destruct (JsString.includes (toLowerCase i) _) eqn:Hi; [by eauto 6|].
  destruct (ToBoolean (description m)); [|done].
  destruct (description m) as [| | | |d| |]; simpl; try done.
  intros [= Hd]. eauto 6.
Qed.

Lemma filteredModels_empty_filter (st : state) :
  modelFilter st = [] ->
  filteredModels toLowerCase st = Normal (availableModels st).
Proof. intros Hf. unfold filteredModels. by rewrite Hf. Qed.

(** C4. Filtering any catalog with the empty filter string gives back the
    catalog itself, unchanged and without a throw, whatever its entries
    hold; so does the computed list once a model has been picked, which
    empties the filter. *)
Theorem filter_models_empty_filter (C : list Model) :
  filter_models toLowerCase C [] = Normal C
  /\ forall st modelId,
      availableModels st = C ->
      filteredModels toLowerCase (selectModel modelId st) = Normal C.
Proof.
  split.
  - unfold filter_models. simpl. reflexivity.
  - intros st modelId <-. unfold selectModel, assign_selectedModel.
    case_decide; reflexivity.
Qed.

Hypothesis toLowerCase_empty : toLowerCase [] = [].

(** C5. On a catalog of descriptors as [interface Model] types them, the
    filter returns, for every filter string, a subsequence of the catalog
    (input order kept), each element of which contains the filter string,
    case aside, in its name, its id or its description. *)
Theorem filter_models_subsequence (C : list Model) (f : jsstring) :
  Forall Model_typed C ->
  exists out,
    filter_models toLowerCase C f = Normal out
    /\ sublist out C
    /\ Forall (fun m => contains_ci toLowerCase f (name m)
                        \/ contains_ci toLowerCase f (id m)
                        \/ contains_ci toLowerCase f (description m)) out.
Proof.
  intros Htyped. unfold filter_models.
  destruct f as [|c f]; simpl.
  - exists C. split; [done|]. split; [done|].
    eapply Forall_impl; [exact Htyped|].
    intros m Hm. left. unfold Model_typed in Hm.
    destruct (name m) as [| | | |n| |] eqn:Hn;
      try (by destruct (id m)).
    exists n. split; [done|].
    rewrite toLowerCase_empty. apply includes_nil.
  - destruct (array_filter_total
                (matches_filter toLowerCase (toLowerCase (c :: f))) C)
      as [out Hout].
    { eapply Forall_impl; [exact Htyped|].
      intros m Hm. by apply matches_filter_typed. }
    exists out. split; [done|].
    destruct (array_filter_spec _ _ _ Hout) as [Hsub Hall].
    split; [done|].
    eapply Forall_impl; [exact Hall|].
    intros m Hm. by apply matches_filter_true.
Qed.

End FilterProperties.

(** ** Model catalog *)

Lemma loadModels_resume_not_ok (status : N) (parsed : option value)
    (st : state) :
  ok status = false ->
  loadModels_resume (FetchResponse status parsed) st
  = ([], set_isLoadingModels false st).
Proof.
  intros Hok. unfold loadModels_resume, loadModels_try. by rewrite Hok.
Qed.

Lemma loadModels_resume_rejected (st : state) :
  loadModels_resume FetchRejected st
  = ([ConsoleError MODELS_ERROR_LABEL NetworkError],
     set_isLoadingModels false (set_availableModels fallbackModels st)).
Proof. reflexivity. Qed.

Lemma loadModels_resume_unparsable (status : N) (st : state) :
  ok status = true ->
  loadModels_resume (FetchResponse status None) st
  = ([ConsoleError MODELS_ERROR_LABEL SyntaxError],
     set_isLoadingModels false (set_availableModels fallbackModels st)).
Proof.
  intros Hok. unfold loadModels_resume, loadModels_try. by rewrite Hok.
Qed.


(** C1, at the failing input. The first load of a session (the catalog is
    still empty) answered with HTTP 500: nothing is thrown or logged, and
    the catalog stays empty instead of becoming the two fallback entries. *)
Theorem loadModels_http_500_keeps_catalog :
  let st0 := initial_state ∅ (js "http://localhost") in
  let '(log, st) :=
    complete (fun _ => FetchResponse 500 None) (loadModels st0) in
  log = [Fetch models_request]
  /\ availableModels st = []
  /\ availableModels st <> fallbackModels
  /\ isLoadingModels st = false.
Proof. vm_compute. repeat split; done. Qed.

(** C9. An entry of the catalog that is mapped at all (any value but
    [null] or [undefined]) gets as display name its own name when that is a
    non-empty string, and its id when the name is absent or the empty
    string; so with a non-empty string for id the display name is never
    empty. *)
Theorem map_entry_name (entry : value) :
  entry <> VNull -> entry <> VUndefined ->
  exists m entry_id entry_name,
    map_entry entry = Normal m
    /\ Get entry (js "id") = Normal entry_id
    /\ Get entry (js "name") = Normal entry_name
    /\ id m = entry_id
    /\ (forall s, entry_name = VStr s -> s <> [] -> name m = VStr s)
    /\ (entry_name = VUndefined \/ entry_name = VStr [] ->
        name m = entry_id)
    /\ (forall i, entry_id = VStr i -> i <> [] ->
        ToBoolean (name m) = true
        /\ (is_optional_string entry_name ->
            exists n, name m = VStr n /\ n <> [])).
Proof.
  intros Hnull Hundef.
  assert (Hget : forall k, exists v, Get entry k = Normal v).
  { intros k. destruct entry; simpl; try done; by eexists. }
  destruct (Hget (js "id")) as [entry_id Hid].
  destruct (Hget (js "name")) as [entry_name Hname].
  destruct (Hget (js "description")) as [d Hd].
  destruct (Hget (js "context_length")) as [c Hc].
  destruct (Hget (js "pricing")) as [p Hp].
  unfold map_entry. rewrite Hid, Hname, Hd, Hc, Hp. simpl.
  destruct (ToBoolean entry_name) eqn:Htruthy; simpl.
  - eexists _, entry_id, entry_name. repeat split; simpl; try done.
    + intros [->| ->]; done.
    + intros Hopt. destruct entry_name as [| | | |n| |]; try done.
      exists n. split; [done|]. by destruct n.
  - eexists _, entry_id, entry_name. repeat split; simpl; try done.
    + intros s -> Hs. by destruct s.
    + by subst; destruct i.
    + intros _. subst. by exists i.
Qed.

(** ** Completion client *)

Lemma truthy_false (s : jsstring) : JsString.truthy s = false <-> s = [].
Proof. destruct s; simpl; split; done. Qed.

Lemma generateDescription_validated (st : state) :
  passes_validation st ->
  generateDescription st
  = Awaiting [] (loading_state st) (completion_request (loading_state st))
      generateDescription_resume.
Proof.
  intros [Hin Hkey]. unfold generateDescription.
  destruct (JsString.truthy (JsString.trim (inputText st))) eqn:H1;
    [|by apply truthy_false in H1].
  destruct (JsString.truthy (JsString.trim (apiKey st))) eqn:H2;
    [|by apply truthy_false in H2].
  reflexivity.
Qed.

(** C3. When the input text or the API key is empty once trimmed, the run
    ends at once, without awaiting: its only effect is the alert, no
    request is issued, and the state (output text and loading flag with it)
    is the one it started from. *)
Theorem generateDescription_validation_error (st : state) :
  JsString.trim (inputText st) = [] \/ JsString.trim (apiKey st) = [] ->
  generateDescription st = Returned [Alert VALIDATION_MESSAGE] st
  /\ forall net,
      let '(log, st') := complete net (generateDescription st) in
      log = [Alert VALIDATION_MESSAGE]
      /\ (forall req, Fetch req ∉ log)
      /\ outputText st' = outputText st
      /\ isLoading st' = isLoading st
      /\ st' = st.
Proof.
  intros Hempty.
  assert (Hrun : generateDescription st
                 = Returned [Alert VALIDATION_MESSAGE] st).
  { unfold generateDescription.
    destruct Hempty as [-> | ->]; simpl; [done|].
    by rewrite orb_true_r. }
  split; [done|]. intros net. rewrite Hrun. simpl.
  repeat split; try done.
  intros req Hin. apply list_elem_of_singleton in Hin. done.
Qed.


Lemma own_property_found (before after : list (jsstring * value))
    (k : jsstring) (x : value) :
  k ∉ before.*1 -> own_property (before ++ (k, x) :: after) k = x.
Proof.
  induction before as [|[k' x'] before IH]; simpl; intros Hk.
  - by rewrite decide_True.
  - apply not_elem_of_cons in Hk as [Hne Hk].
    rewrite decide_False by congruence. by apply IH.
Qed.

Lemma Get_has_property (v : value) (k : jsstring) (x : value) :
  has_property v k x -> Get v k = Normal x.
Proof.
  intros [before after k' x' Hk]. simpl. by rewrite own_property_found.
Qed.

Lemma generateDescription_reads_content (st : state) (status : N)
    (data : value) (s : jsstring) :
  passes_validation st ->
  ok status = true ->
  first_choice_content data = Normal (VStr s) ->
  complete (fun _ => FetchResponse status (Some data))
    (generateDescription st)
  = ([Fetch (completion_request (loading_state st))],
     set_isLoading false (set_outputText (VStr s) (loading_state st))).
Proof.
  intros Hvalid Hok Hcontent.
  rewrite (generateDescription_validated st Hvalid). simpl.
  unfold generateDescription_resume, generateDescription_try.
  rewrite Hok. simpl. rewrite Hcontent. done.
Qed.

(** C6. A validated run answered by a 2xx response whose parsed body is an
    object with an array under [choices], the first element of which is an
    object with an object under [message] that has the string [s] under
    [content], ends with exactly [s] as output text: the same code units,
    whatever they are and whatever else the body holds. *)
Theorem generateDescription_surfaces_content (st : state) (status : N)
    (data choice message : value) (rest : list value) (s : jsstring) :
  passes_validation st ->
  ok status = true ->
  has_property data (js "choices") (VArr (choice :: rest)) ->
  has_property choice (js "message") message ->
  has_property message (js "content") (VStr s) ->
  complete (fun _ => FetchResponse status (Some data))
    (generateDescription st)
  = ([Fetch (completion_request (loading_state st))],
     set_isLoading false (set_outputText (VStr s) (loading_state st)))
  /\ outputText
       (complete (fun _ => FetchResponse status (Some data))
          (generateDescription st)).2
     = VStr s.
Proof.
  intros Hvalid Hok Hchoices Hmessage Hcontent.
  assert (Hread : first_choice_content data = Normal (VStr s)).
  { unfold first_choice_content, first_choice_message.
    rewrite (Get_has_property _ _ _ Hchoices). simpl.
    rewrite (Get_has_property _ _ _ Hmessage). simpl.
    apply (Get_has_property _ _ _ Hcontent). }
  rewrite (generateDescription_reads_content st status data s
             Hvalid Hok Hread).
  done.
Qed.


Lemma generateDescription_resume_isLoading (r : fetch_outcome)
    (st : state) :
  isLoading (generateDescription_resume r st).2 = false.
Proof.
  unfold generateDescription_resume.
  by destruct (generateDescription_try r).
Qed.

(** C10. A validated run awaits its response in a state whose output text
    is the empty string and whose loading flag is up, having emitted
    nothing before; however the request ends, and whatever the state is
    when the run is resumed, the loading flag is down afterwards. *)
Theorem generateDescription_lifecycle (st : state) :
  passes_validation st ->
  exists st_waiting req resume,
    generateDescription st = Awaiting [] st_waiting req resume
    /\ outputText st_waiting = VStr []
    /\ isLoading st_waiting = true
    /\ (forall r st_resumed, isLoading (resume r st_resumed).2 = false)
    /\ (forall net,
         isLoading (complete net (generateDescription st)).2 = false).
Proof.
  intros Hvalid.
  exists (loading_state st), (completion_request (loading_state st)),
    generateDescription_resume.
  rewrite (generateDescription_validated st Hvalid).
  repeat split; try done.
  - intros r s. apply generateDescription_resume_isLoading.
  - intros net. simpl.
    pose proof (generateDescription_resume_isLoading
                  (net (completion_request (loading_state st)))
                  (loading_state st)) as H.
    destruct (generateDescription_resume _ _) as [log' st']. exact H.
Qed.

(** ** Settings store *)

(** C8. Whatever API key the store holds, saving the empty string deletes
    the entry: afterwards the store has no value under the key, an empty
    string no more than any other. *)
Theorem saveApiKey_empty_removes (ls : Storage) (v : jsstring) :
  getItem KEY_API_KEY ls = Some v ->
  saveApiKey [] ls = removeItem KEY_API_KEY ls
  /\ getItem KEY_API_KEY (saveApiKey [] ls) = None
  /\ getItem KEY_API_KEY (saveApiKey [] ls) <> Some []
  /\ KEY_API_KEY ∉ dom (saveApiKey [] ls).
Proof.
  intros _. unfold saveApiKey, getItem, removeItem. simpl.
  assert (Hgone : delete KEY_API_KEY ls !! KEY_API_KEY = None)
    by apply lookup_delete_eq.
  rewrite Hgone. repeat split; try done.
  by apply not_elem_of_dom.
Qed.

Lemma assign_apiKey_empty_removes (st : state) :
  apiKey st <> [] ->
  getItem KEY_API_KEY (localStorage (assign_apiKey [] st)) = None.
Proof.
  intros Hkey. unfold assign_apiKey.
  case_decide as Heq; [by rewrite <- Heq in Hkey|].
  simpl. unfold saveApiKey, getItem, removeItem. simpl.
  apply lookup_delete_eq.
Qed.

(** ** The rendered prompt *)

(** C2, at the failing input. With the default template, which has the
    token once, at its end, and the input text [$$], the prompt that is
    sent ends in a single dollar sign: the text is read as a replacement
    pattern, not inserted as it is. *)
Theorem render_prompt_dollar_input :
  let pre := take (length defaultPrompt - length INPUT_TOKEN) defaultPrompt in
  systemPrompt dollar_input_state = pre ++ INPUT_TOKEN
  /\ occurrences (systemPrompt dollar_input_state) INPUT_TOKEN = 1%nat
  /\ inputText dollar_input_state = js "$$"
  /\ (exists st resume,
        generateDescription dollar_input_state
        = Awaiting [] st (completion_request st) resume
        /\ render_prompt st = pre ++ js "$")
  /\ render_prompt dollar_input_state
     <> pre ++ inputText dollar_input_state.
Proof.
  cbv zeta. split; [by vm_compute|]. split; [by vm_compute|].
  split; [by vm_compute|]. split.
  - exists (loading_state dollar_input_state), generateDescription_resume.
    split; [|by vm_compute].
    apply generateDescription_validated. split; by vm_compute.
  - by vm_compute.
Qed.

(** ** Instances *)

(** A text of blanks is refused. *)
Lemma generateDescription_validation_error_witness :
  (JsString.trim (inputText blank_input_state) = []
   \/ JsString.trim (apiKey blank_input_state) = [])
  /\ generateDescription blank_input_state
     = Returned [Alert VALIDATION_MESSAGE] blank_input_state.
Proof.
  assert (H : JsString.trim (inputText blank_input_state) = []
              \/ JsString.trim (apiKey blank_input_state) = [])
    by (left; reflexivity).
  split; [exact H|].
  exact (proj1 (generateDescription_validation_error blank_input_state H)).
Defined.

(** The fallback catalog filtered by [GPT], with the ASCII case mapping. *)
Lemma filter_models_subsequence_witness :
  ascii_toLowerCase [] = []
  /\ Forall Model_typed fallbackModels
  /\ exists out,
      filter_models ascii_toLowerCase fallbackModels (js "GPT") = Normal out
      /\ sublist out fallbackModels
      /\ Forall (fun m =>
                   contains_ci ascii_toLowerCase (js "GPT") (name m)
                   \/ contains_ci ascii_toLowerCase (js "GPT") (id m)
                   \/ contains_ci ascii_toLowerCase (js "GPT")
                        (description m)) out.
Proof.
  assert (Htyped : Forall Model_typed fallbackModels)
    by (repeat constructor).
  split; [reflexivity|]. split; [exact Htyped|].
  exact (filter_models_subsequence ascii_toLowerCase eq_refl
           fallbackModels (js "GPT") Htyped).
Defined.

(** The sample completion is surfaced as it is. *)
Lemma generateDescription_surfaces_content_witness :
  passes_validation sample_state
  /\ ok 200 = true
  /\ has_property sample_completion (js "choices")
       (VArr [ VObj [ (js "message",
                       VObj [ (js "content",
                               VStr (js "- A — b. http://x")) ]) ] ])
  /\ has_property
       (VObj [ (js "message",
                VObj [ (js "content", VStr (js "- A — b. http://x")) ]) ])
       (js "message")
       (VObj [ (js "content", VStr (js "- A — b. http://x")) ])
  /\ has_property (VObj [ (js "content", VStr (js "- A — b. http://x")) ])
       (js "content") (VStr (js "- A — b. http://x"))
  /\ outputText
       (complete (fun _ => FetchResponse 200 (Some sample_completion))
          (generateDescription sample_state)).2
     = VStr (js "- A — b. http://x").
Proof.
  assert (Hvalid : passes_validation sample_state)
    by (split; by vm_compute).
  assert (Hchoices :
            has_property sample_completion (js "choices")
              (VArr [ VObj [ (js "message",
                              VObj [ (js "content",
                                      VStr (js "- A — b. http://x")) ]) ] ]))
    by (apply (has_property_intro [] []), not_elem_of_nil).
  assert (Hmessage :
            has_property
              (VObj [ (js "message",
                       VObj [ (js "content",
                               VStr (js "- A — b. http://x")) ]) ])
              (js "message")
              (VObj [ (js "content", VStr (js "- A — b. http://x")) ]))
    by (apply (has_property_intro [] []), not_elem_of_nil).
  assert (Hcontent :
            has_property
              (VObj [ (js "content", VStr (js "- A — b. http://x")) ])
              (js "content") (VStr (js "- A — b. http://x")))
    by (apply (has_property_intro [] []), not_elem_of_nil).
  split; [exact Hvalid|]. split; [reflexivity|].
  split; [exact Hchoices|]. split; [exact Hmessage|].
  split; [exact Hcontent|].
  exact (proj2 (generateDescription_surfaces_content sample_state 200
                  sample_completion _ _ [] (js "- A — b. http://x")
                  Hvalid eq_refl Hchoices Hmessage Hcontent)).
Defined.


(** The sample session passes the guard. *)
Lemma generateDescription_lifecycle_witness :
  passes_validation sample_state
  /\ exists st_waiting req resume,
      generateDescription sample_state
      = Awaiting [] st_waiting req resume
      /\ outputText st_waiting = VStr []
      /\ isLoading st_waiting = true
      /\ (forall r st_resumed, isLoading (resume r st_resumed).2 = false)
      /\ (forall net,
           isLoading (complete net (generateDescription sample_state)).2
           = false).
Proof.
  assert (Hvalid : passes_validation sample_state)
    by (split; by vm_compute).
  split; [exact Hvalid|].
  exact (generateDescription_lifecycle sample_state Hvalid).
Defined.

(** The key [sk-123] is saved, then the empty key. *)
Lemma saveApiKey_empty_removes_witness :
  getItem KEY_API_KEY (saveApiKey (js "sk-123") ∅) = Some (js "sk-123")
  /\ getItem KEY_API_KEY (saveApiKey [] (saveApiKey (js "sk-123") ∅))
     = None.
Proof.
  assert (Hstored : getItem KEY_API_KEY (saveApiKey (js "sk-123") ∅)
                    = Some (js "sk-123"))
    by apply lookup_insert_eq.
  split; [exact Hstored|].
  exact (proj1 (proj2 (saveApiKey_empty_removes _ _ Hstored))).
Defined.

(** An entry with an id and no name. *)
Lemma map_entry_name_witness :
  sample_entry <> VNull
  /\ sample_entry <> VUndefined
  /\ exists m entry_id entry_name,
      map_entry sample_entry = Normal m
      /\ Get sample_entry (js "id") = Normal entry_id
      /\ Get sample_entry (js "name") = Normal entry_name
      /\ id m = entry_id
      /\ (forall s, entry_name = VStr s -> s <> [] -> name m = VStr s)
      /\ (entry_name = VUndefined \/ entry_name = VStr [] ->
          name m = entry_id)
      /\ (forall i, entry_id = VStr i -> i <> [] ->
          ToBoolean (name m) = true
          /\ (is_optional_string entry_name ->
              exists n, name m = VStr n /\ n <> [])).
Proof.
  assert (Hnull : sample_entry <> VNull) by discriminate.
  assert (Hundef : sample_entry <> VUndefined) by discriminate.
  split; [exact Hnull|]. split; [exact Hundef|].
  exact (map_entry_name sample_entry Hnull Hundef).
Defined.

(** * Further properties *)

(** ** Built-ins, continued *)

Lemma trimStart_nil (s : jsstring) :
  JsString.trimStart s = [] <-> only_blanks s = true.
Proof.
  induction s as [|c s IH]; simpl; [done|].
  destruct (JsString.is_trimmed c); simpl; [done|].
  split; done.
Qed.

Lemma trimStart_head (s r : jsstring) (c : N) :
  JsString.trimStart s = c :: r -> JsString.is_trimmed c = false.
Proof.
  induction s as [|b s IH]; simpl; [done|].
  destruct (JsString.is_trimmed b) eqn:Hb; [done|].
  by intros [= <- _].
Qed.

Lemma only_blanks_rev (s : jsstring) :
  only_blanks (rev s) = only_blanks s.
Proof.
  unfold only_blanks. induction s as [|c s IH]; simpl; [done|].
  rewrite forallb_app, IH. simpl. rewrite andb_true_r. apply andb_comm.
Qed.

Lemma trim_nil (s : jsstring) :
  JsString.trim s = [] <-> only_blanks s = true.
Proof.
  unfold JsString.trim, JsString.trimEnd. split.
  - intros Hnil.
    assert (Hinner : JsString.trimStart (rev (JsString.trimStart s)) = []).
    { by rewrite <- (rev_involutive (JsString.trimStart _)), Hnil. }
    apply trimStart_nil in Hinner. rewrite only_blanks_rev in Hinner.
    destruct (JsString.trimStart s) as [|c r] eqn:Hs;
      [by apply trimStart_nil|].
    apply trimStart_head in Hs. simpl in Hinner. by rewrite Hs in Hinner.
  - intros Hblank. apply trimStart_nil in Hblank. by rewrite Hblank.
Qed.

Lemma trim_truthy (s : jsstring) :
  JsString.truthy (JsString.trim s) = negb (only_blanks s).
Proof.
  destruct (only_blanks s) eqn:Hb.
  - apply trim_nil in Hb. by rewrite Hb.
  - destruct (JsString.trim s) eqn:Ht; [|done].
    apply trim_nil in Ht. congruence.
Qed.

Lemma state_eta (st : state) :
  st = set_isLoading (isLoading st) (set_outputText (outputText st) st).
Proof. by destruct st. Qed.

(** ** Completion client, continued *)

(** X1. [generateDescription] alerts exactly when the input text or the
    API key holds nothing but white space and line terminators (the empty
    string included); in every other state it issues its request, and
    alerts nothing. *)
Theorem generateDescription_alert_iff_blank (st : state) :
  (only_blanks (inputText st) || only_blanks (apiKey st) = true ->
   generateDescription st = Returned [Alert VALIDATION_MESSAGE] st)
  /\ (only_blanks (inputText st) || only_blanks (apiKey st) = false ->
      generateDescription st
      = Awaiting [] (loading_state st)
          (completion_request (loading_state st))
          generateDescription_resume).
Proof.
  unfold generateDescription. rewrite !trim_truthy, !negb_involutive.
  split; intros ->; reflexivity.
Qed.

(** X2. While the generate button is enabled a click never ends in the
    alert: the request is issued. The button is disabled in the state the
    run awaits in, and enabled again once the run is resumed, if the text
    and the key were left alone. *)
Theorem generate_button_gates (st : state) :
  generate_disabled st = false ->
  generateDescription st
  = Awaiting [] (loading_state st) (completion_request (loading_state st))
      generateDescription_resume
  /\ generate_disabled (loading_state st) = true
  /\ forall r,
      generate_disabled (generateDescription_resume r (loading_state st)).2
      = false.
Proof.
  unfold generate_disabled. intros Hen.
  apply orb_false_iff in Hen as [Hen Hkey].
  apply orb_false_iff in Hen as [Hload Hin].
  split; [|split].
  - unfold generateDescription. by rewrite Hin, Hkey.
  - reflexivity.
  - intros r. unfold generateDescription_resume.
    destruct (generateDescription_try r); simpl; by rewrite Hin, Hkey.
Qed.

(** X3. Whatever the network answers, and whether or not the guard lets
    the run through, [generateDescription] changes nothing but the output
    text and the loading flag: the settings, the store, the catalog and
    the text typed are as before; and it sends at most the one request. *)
Theorem generateDescription_frame (net : request -> fetch_outcome)
    (st : state) :
  let '(log, st') := complete net (generateDescription st) in
  st' = set_isLoading (isLoading st') (set_outputText (outputText st') st)
  /\ localStorage st' = localStorage st
  /\ availableModels st' = availableModels st
  /\ (length (List.filter
                (fun e => match e with Fetch _ => true | _ => false end)
                log) <= 1)%nat.
Proof.
  unfold generateDescription.
  destruct (_ || _); simpl.
  - split; [apply state_eta|]. repeat split; lia.
  - unfold generateDescription_resume.
    destruct (generateDescription_try _); simpl;
      (split; [by destruct st|]); repeat split; lia.
Qed.


(** ** The rendered prompt, continued *)

Lemma indexOf_from_occurs (s search : jsstring) (k i : nat) :
  JsString.indexOf_from s search k = Some i ->
  exists j, i = (k + j)%nat /\ (j <= length s)%nat
            /\ JsString.startsWith (drop j s) search = true.
Proof.
  revert k. induction s as [|c s IH]; intros k;
    cbn [JsString.indexOf_from].
  - destruct (JsString.startsWith [] search) eqn:Hhere; [|done].
    intros [= <-]. exists 0%nat. repeat split; [lia | done | done].
  - destruct (JsString.startsWith (c :: s) search) eqn:Hhere.
    + intros [= <-]. exists 0%nat. repeat split; [lia | simpl; lia | done].
    + intros Hrec. destruct (IH _ Hrec) as (j & -> & Hj & Hocc).
      exists (S j). repeat split; [lia | simpl; lia | done].
Qed.

Lemma occurrences_position (s search : jsstring) :
  (1 <= occurrences s search)%nat ->
  exists j, (j <= length s)%nat
            /\ JsString.startsWith (drop j s) search = true.
Proof.
  induction s as [|c s IH]; cbn [occurrences].
  - destruct (JsString.startsWith [] search) eqn:Hhere; [|lia].
    intros _. by exists 0%nat.
  - destruct (JsString.startsWith (c :: s) search) eqn:Hhere.
    + intros _. exists 0%nat. split; [lia | done].
    + intros Hrest. destruct (IH ltac:(lia)) as (j & Hj & Hocc).
      exists (S j). split; [simpl; lia | done].
Qed.

Lemma indexOf_none (s search : jsstring) :
  occurrences s search = 0%nat -> JsString.indexOf s search = None.
Proof.
  intros Hzero. unfold JsString.indexOf.
  destruct (JsString.indexOf_from s search 0) as [i|] eqn:Hfound; [|done].
  destruct (indexOf_from_occurs _ _ _ _ Hfound) as (j & _ & Hj & Hocc).
  pose proof (occurrences_pos s search j Hj Hocc). lia.
Qed.

(** X5. When the prompt template does not contain the token [{input}],
    the prompt that is sent is the template as it stands: the text the user
    entered is not part of the request. *)
Theorem render_prompt_without_token (st : state) :
  occurrences (systemPrompt st) INPUT_TOKEN = 0%nat ->
  render_prompt st = systemPrompt st
  /\ body (completion_request st)
     = Some (VObj
         [ (js "model", VStr (selectedModel st));
           (js "messages",
            VArr [ VObj [ (js "role", VStr (js "user"));
                          (js "content", VStr (systemPrompt st)) ] ]) ]).
Proof.
  intros Hzero.
  assert (Hsame : render_prompt st = systemPrompt st).
  { unfold render_prompt, JsString.replace. by rewrite indexOf_none. }
  split; [done|]. unfold completion_request. simpl. by rewrite Hsame.
Qed.

(** X6. When the template contains the token and the input text has no
    dollar sign, the prompt that is sent is the template with the text in
    the place of the first occurrence of the token: what precedes and what
    follows that occurrence, later tokens included, is kept. *)
Theorem render_prompt_first_token (st : state) :
  (1 <= occurrences (systemPrompt st) INPUT_TOKEN)%nat ->
  JsString.DOLLAR ∉ inputText st ->
  exists pre post,
    systemPrompt st = pre ++ INPUT_TOKEN ++ post
    /\ render_prompt st = pre ++ inputText st ++ post
    /\ forall pre' post',
        systemPrompt st = pre' ++ INPUT_TOKEN ++ post' ->
        (length pre <= length pre')%nat.
Proof.
  intros Hsome Hfree. set (s := systemPrompt st).
  destruct (occurrences_position s INPUT_TOKEN Hsome) as (j & Hj & Hocc).
  destruct (indexOf_from_first s INPUT_TOKEN 0 j Hj Hocc)
    as (i & Hfound & Hle & Hi).
  simpl in Hfound.
  assert (Hsplit : s = take i s ++ INPUT_TOKEN
                         ++ drop (i + length INPUT_TOKEN) s).
  { rewrite <- (take_drop i s) at 1. f_equal.
    rewrite (startsWith_inv _ _ Hi) at 1. f_equal.
    by rewrite drop_drop. }
  assert (Hi_le : (i <= length s)%nat) by lia.
  exists (take i s), (drop (i + length INPUT_TOKEN) s).
  split; [exact Hsplit|]. split.
  - unfold render_prompt, JsString.replace, JsString.indexOf.
    fold s. rewrite Hfound.
    by rewrite GetSubstitution_literal.
  - intros pre' post' Hs'. rewrite length_take, Nat.min_l by lia.
    assert (Hlen' : (length pre' <= length s)%nat).
    { rewrite Hs', length_app. lia. }
    assert (Hocc' : JsString.startsWith (drop (length pre') s) INPUT_TOKEN
                    = true).
    { rewrite Hs', drop_app_length. apply startsWith_app. }
    destruct (indexOf_from_first s INPUT_TOKEN 0 _ Hlen' Hocc')
      as (i' & Hfound' & Hle' & _).
    simpl in Hfound'. congruence.
Qed.

(** ** Model catalog, continued *)

Lemma Get_present (entry : value) (k : jsstring) :
  entry <> VNull -> entry <> VUndefined ->
  exists v, Get entry k = Normal v.
Proof. intros Hnull Hundef. destruct entry; simpl; try done; by eexists. Qed.

Lemma map_entry_absent (entry : value) :
  entry = VNull \/ entry = VUndefined -> map_entry entry = Throw TypeError.
Proof. by intros [-> | ->]. Qed.




Lemma map_entry_total (entry : value) :
  entry <> VNull -> entry <> VUndefined ->
  exists m, map_entry entry = Normal m.
Proof.
  intros Hnull Hundef. unfold map_entry.
  destruct (Get_present entry (js "id") Hnull Hundef) as [i ->].
  destruct (Get_present entry (js "name") Hnull Hundef) as [n ->].
  destruct (Get_present entry (js "description") Hnull Hundef) as [d ->].
  destruct (Get_present entry (js "context_length") Hnull Hundef) as [c ->].
  destruct (Get_present entry (js "pricing") Hnull Hundef) as [p ->].
  simpl. destruct (ToBoolean n); simpl; by eexists.
Qed.

Lemma map_entry_throws (entry : value) (e : error) :
  map_entry entry = Throw e -> e = TypeError.
Proof.
  destruct entry as [| | | | | |] eqn:Hentry;
    try (intros [= <-]; reflexivity);
    intros Hthrow;
    match goal with
    | _ : map_entry ?v = _ |- _ =>
        destruct (map_entry_total v ltac:(done) ltac:(done)) as [m Hm]
    end; congruence.
Qed.

Lemma map_entries_absent (entries : list value) :
  VNull ∈ entries -> array_map map_entry entries = Throw TypeError.
Proof.
  induction entries as [|entry entries IH]; intros Hin.
  - by apply not_elem_of_nil in Hin.
  - apply elem_of_cons in Hin. simpl.
    destruct (map_entry entry) as [m|e] eqn:Hm; simpl.
    + destruct Hin as [<- | Hin]; [done|]. by rewrite IH.
    + by rewrite (map_entry_throws _ _ Hm).
Qed.

(** X7. Whatever the network answers, [loadModels] changes nothing but the
    catalog and its own loading flag, which is down at the end; it never
    alerts, and it leaves the store and the selected model alone. *)
Theorem loadModels_frame (net : request -> fetch_outcome) (st : state) :
  let '(log, st') := complete net (loadModels st) in
  st' = set_isLoadingModels false
          (set_availableModels (availableModels st') st)
  /\ isLoadingModels st' = false
  /\ localStorage st' = localStorage st
  /\ selectedModel st' = selectedModel st
  /\ forall message, Alert message ∉ log.
Proof.
  simpl. unfold loadModels_resume.
  destruct (loadModels_try _) as [[models|]|e]; simpl;
    (split; [by destruct st|]); repeat split;
    intros message Hin; repeat (apply elem_of_cons in Hin as [Hin|Hin]);
    try done; by apply not_elem_of_nil in Hin.
Qed.


(** X9. A 2xx answer whose parsed body has no array under [data], or has
    one with a [null] in it, gives the fallback catalog, all the other
    entries of the answer being dropped; the TypeError is logged. *)
Theorem loadModels_malformed_body (status : N) (data : value) (st : state) :
  ok status = true ->
  (forall entries, Get data (js "data") <> Normal (VArr entries))
  \/ (exists entries, Get data (js "data") = Normal (VArr entries)
                      /\ VNull ∈ entries) ->
  loadModels_resume (FetchResponse status (Some data)) st
  = ([ConsoleError MODELS_ERROR_LABEL TypeError],
     set_isLoadingModels false (set_availableModels fallbackModels st)).
Proof.
  intros Hok Hbad. unfold loadModels_resume, loadModels_try. rewrite Hok.
  destruct Hbad as [Hnone | (entries & Hdata & Hnull)].
  - destruct (Get data (js "data")) as [v|e] eqn:Hget; simpl.
    + destruct v; try done. by destruct (Hnone elements).
    + destruct data; simpl in Hget; try done; by injection Hget as <-.
  - rewrite Hdata. simpl. by rewrite map_entries_absent.
Qed.

(** ** Model filter, continued *)

Section FilterExact.

Variable toLowerCase : jsstring -> jsstring.

Lemma matches_filter_kept (filter : jsstring) (m : Model) :
  Model_typed m ->
  matches_filter toLowerCase filter m
  = Normal (kept toLowerCase filter m).
Proof.
  unfold Model_typed, matches_filter, kept.
  destruct m as [i n d c p]; simpl.
  destruct i as [| | | |i| |]; try done.
  destruct n as [| | | |n| |]; try done. simpl.
  destruct (JsString.includes (toLowerCase n) filter); [done|].
  destruct (JsString.includes (toLowerCase i) filter); [done|].
  destruct d as [| | | |d| |]; try done. simpl.
  by destruct (JsString.truthy d).
Qed.

Lemma array_filter_normal {A} (p : A -> completion bool) (q : A -> bool)
    (xs : list A) :
  Forall (fun x => p x = Normal (q x)) xs ->
  array_filter p xs = Normal (List.filter q xs).
Proof.
  induction 1 as [|x xs Hx _ IH]; simpl; [done|].
  rewrite Hx, IH. simpl. by destruct (q x).
Qed.

Lemma matches_filter_throws (filter : jsstring) (m : Model) (e : error) :
  matches_filter toLowerCase filter m = Throw e -> e = TypeError.
Proof.
  unfold matches_filter, call_toLowerCase.
  destruct (name m); simpl; try (by intros [= <-]).
  destruct (JsString.includes _ filter); [done|].
  destruct (id m); simpl; try (by intros [= <-]).
  destruct (JsString.includes _ filter); [done|].
  destruct (ToBoolean (description m)); [|done].
  destruct (description m); simpl; by intros [= <-].
Qed.

Lemma matches_filter_bad_name (filter : jsstring) (m : Model) :
  is_string (name m) = false ->
  matches_filter toLowerCase filter m = Throw TypeError.
Proof. unfold matches_filter. by destruct (name m). Qed.

(** X10. On a typed catalog and a filter string that is not empty, the
    filter returns exactly the descriptors for which the lowered name or id,
    or a non-empty description, includes the lowered filter string: all of
    them, each as often as it is in the catalog, in catalog order. *)
Theorem filter_models_exact (C : list Model) (f : jsstring) :
  Forall Model_typed C ->
  f <> [] ->
  filter_models toLowerCase C f
  = Normal (List.filter (kept toLowerCase (toLowerCase f)) C)
  /\ forall m,
      In m (List.filter (kept toLowerCase (toLowerCase f)) C)
      <-> In m C /\ kept toLowerCase (toLowerCase f) m = true.
Proof.
  intros Htyped Hf. split; [|intros m; apply filter_In].
  unfold filter_models. destruct f as [|c f]; [done|]. simpl.
  apply array_filter_normal.
  eapply Forall_impl; [exact Htyped|].
  intros m Hm. by apply matches_filter_kept.
Qed.

(** X11. With a filter string that is not empty, one descriptor whose name
    is not a string, anywhere in the catalog, makes the whole computation
    throw a TypeError: no filtered list is produced. *)
Theorem filter_models_bad_name_throws (C : list Model) (f : jsstring) :
  f <> [] ->
  Exists (fun m => is_string (name m) = false) C ->
  filter_models toLowerCase C f = Throw TypeError.
Proof.
  intros Hf Hbad. unfold filter_models.
  destruct f as [|c f]; [done|]. simpl.
  induction Hbad as [m C Hm | m C _ IH]; simpl.
  - by rewrite matches_filter_bad_name.
  - destruct (matches_filter _ _ m) as [b|e] eqn:Hmatch; simpl.
    + by rewrite IH.
    + by rewrite (matches_filter_throws _ _ _ Hmatch).
Qed.

End FilterExact.

(** ** The label of the model button *)

Lemma find_none_app {A} (p : A -> bool) (pre : list A) (x : A)
    (post : list A) :
  Forall (fun y => p y = false) pre ->
  p x = true ->
  List.find p (pre ++ x :: post) = Some x.
Proof.
  induction 1 as [|y pre Hy _ IH]; intros Hx; simpl.
  - by rewrite Hx.
  - rewrite Hy. by apply IH.
Qed.

Lemma strict_equals_string_true (v : value) (s : jsstring) :
  strict_equals_string v s = true <-> v = VStr s.
Proof.
  destruct v; simpl; try (split; done).
  rewrite bool_decide_eq_true. split; [by intros -> | by intros [= ->]].
Qed.

(** X12. When no descriptor of the catalog has the selected id (the empty
    catalog of a failed first load included), the model button shows the
    selected id itself. *)
Theorem getSelectedModelName_unknown (st : state) :
  Forall (fun m => id m <> VStr (selectedModel st)) (availableModels st) ->
  getSelectedModelName st = VStr (selectedModel st).
Proof.
  intros Hnone. unfold getSelectedModelName.
  destruct (List.find _ _) as [m|] eqn:Hfind; [|done].
  apply find_some in Hfind as [Hin Heq].
  apply strict_equals_string_true in Heq.
  rewrite Forall_forall in Hnone. apply list_elem_of_In in Hin.
  by destruct (Hnone m Hin).
Qed.

(** X13. Picking from the list a model whose id is a string [i]: the
    dropdown closes, the filter is emptied, the id is what the store holds
    for the next session, and the button shows the name of the first
    descriptor of the catalog that has this id. *)
Theorem selectModel_shows_name (st : state) (pre post : list Model)
    (m : Model) (i : jsstring) :
  availableModels st = pre ++ m :: post ->
  id m = VStr i ->
  Forall (fun m' => id m' <> VStr i) pre ->
  let st' := selectModel i st in
  getSelectedModelName st' = name m
  /\ selectedModel st' = i
  /\ showModelDropdown st' = false
  /\ modelFilter st' = []
  /\ getItem KEY_SELECTED_MODEL (localStorage st') = Some i.
Proof.
  intros Hcat Hid Hpre. simpl.
  assert (Hsel : selectedModel (selectModel i st) = i).
  { unfold selectModel, assign_selectedModel. by case_decide. }
  assert (Hmodels : availableModels (selectModel i st) = pre ++ m :: post).
  { unfold selectModel, assign_selectedModel. by case_decide. }
  split; [|split; [done|]].
  - unfold getSelectedModelName. rewrite Hsel, Hmodels.
    rewrite (find_none_app _ pre m post); [done| |].
    + eapply Forall_impl; [exact Hpre|]. intros m' Hne. simpl in Hne.
      destruct (strict_equals_string (id m') i) eqn:Heq; [|done].
      by apply strict_equals_string_true in Heq.
    + by apply strict_equals_string_true.
  - unfold selectModel, assign_selectedModel.
    case_decide; simpl; repeat split; try done;
      unfold getItem, saveSelectedModel, setItem; by rewrite lookup_insert_eq.
Qed.

(** ** Settings store, continued *)

(** String literals stay folded in the proofs below. *)
#[local] Opaque JsString.utf16.

Lemma keys_distinct :
  KEY_API_KEY <> KEY_SELECTED_MODEL
  /\ KEY_API_KEY <> KEY_SYSTEM_PROMPT
  /\ KEY_SELECTED_MODEL <> KEY_SYSTEM_PROMPT.
Proof. repeat split; intros H; vm_compute in H; discriminate. Qed.

Lemma getItem_or_stored (k fallback v : jsstring) (ls : Storage) :
  getItem_or k fallback (setItem k v ls)
  = if JsString.truthy v then v else fallback.
Proof. unfold getItem_or, getItem, setItem. by rewrite lookup_insert_eq. Qed.

Lemma getItem_or_removed (k fallback : jsstring) (ls : Storage) :
  getItem_or k fallback (removeItem k ls) = fallback.
Proof. unfold getItem_or, getItem, removeItem. by rewrite lookup_delete_eq. Qed.

Lemma getItem_or_same (k fallback : jsstring) (ls ls' : Storage) :
  getItem k ls' = getItem k ls ->
  getItem_or k fallback ls' = getItem_or k fallback ls.
Proof. unfold getItem_or. by intros ->. Qed.

Lemma defaultPrompt_truthy : JsString.truthy defaultPrompt = true.
Proof. by vm_compute. Qed.

Lemma not_blank_truthy (s : jsstring) :
  only_blanks s = false -> JsString.truthy s = true.
Proof. by destruct s. Qed.

(** X14. The model picked is the model of the next session: a page set up
    again over the store has the picked id selected, or the default model
    when the id picked is the empty string. *)
Theorem selectModel_round_trip (st : state) (modelId : jsstring) :
  selectedModel (reload (selectModel modelId st))
  = if JsString.truthy modelId then modelId else DEFAULT_MODEL.
Proof.
  unfold reload, selectModel, assign_selectedModel, saveSelectedModel.
  case_decide; simpl; apply getItem_or_stored.
Qed.

(** X15. An API key typed in place of a different one is the key of the
    next session, unless it holds only blanks: then nothing is kept and the
    next session starts with the empty key. *)
Theorem assign_apiKey_round_trip (st : state) (key : jsstring) :
  key <> apiKey st ->
  apiKey (reload (assign_apiKey key st))
  = if only_blanks key then [] else key.
Proof.
  intros Hnew. unfold reload, assign_apiKey, saveApiKey.
  case_decide; [done|]. simpl. rewrite trim_truthy.
  destruct (only_blanks key) eqn:Hblank; simpl.
  - apply getItem_or_removed.
  - rewrite getItem_or_stored. by rewrite not_blank_truthy.
Qed.

(** X16. A prompt typed in place of a different one is the prompt of the
    next session, and emptying the prompt brings the default prompt back in
    the next session; the reset button puts the default prompt into the ref
    and into the store at once. *)
Theorem systemPrompt_round_trip (st : state) (prompt : jsstring) :
  prompt <> systemPrompt st ->
  systemPrompt (reload (assign_systemPrompt prompt st))
  = (if JsString.truthy prompt then prompt else defaultPrompt)
  /\ systemPrompt (resetPromptToDefault st) = defaultPrompt
  /\ getItem KEY_SYSTEM_PROMPT (localStorage (resetPromptToDefault st))
     = Some defaultPrompt
  /\ systemPrompt (reload (resetPromptToDefault st)) = defaultPrompt.
Proof.
  intros Hnew. split; [|split; [|split]].
  - unfold reload, assign_systemPrompt, saveSystemPrompt.
    case_decide; [done|]. simpl. apply getItem_or_stored.
  - unfold resetPromptToDefault, assign_systemPrompt. by case_decide.
  - unfold resetPromptToDefault, assign_systemPrompt, saveSystemPrompt.
    case_decide; simpl; apply lookup_insert_eq.
  - unfold reload, resetPromptToDefault, assign_systemPrompt,
      saveSystemPrompt.
    case_decide; simpl; rewrite getItem_or_stored, defaultPrompt_truthy;
      reflexivity.
Qed.

(** ** Sessions *)

Lemma getItem_setItem_ne (k k' v : jsstring) (ls : Storage) :
  k <> k' -> getItem k' (setItem k v ls) = getItem k' ls.
Proof. intros Hne. unfold getItem, setItem. by rewrite lookup_insert_ne. Qed.

Lemma getItem_removeItem_ne (k k' : jsstring) (ls : Storage) :
  k <> k' -> getItem k' (removeItem k ls) = getItem k' ls.
Proof. intros Hne. unfold getItem, removeItem. by rewrite lookup_delete_ne. Qed.

Lemma getItem_saveApiKey_ne (k key : jsstring) (ls : Storage) :
  KEY_API_KEY <> k -> getItem k (saveApiKey key ls) = getItem k ls.
Proof.
  intros Hne. unfold saveApiKey.
  destruct (JsString.truthy _);
    [by apply getItem_setItem_ne | by apply getItem_removeItem_ne].
Qed.

Lemma getItem_or_saveApiKey (key : jsstring) (ls : Storage) :
  getItem_or KEY_API_KEY [] (saveApiKey key ls)
  = if only_blanks key then [] else key.
Proof.
  unfold saveApiKey. rewrite trim_truthy.
  destruct (only_blanks key) eqn:Hblank; simpl.
  - apply getItem_or_removed.
  - rewrite getItem_or_stored. by rewrite not_blank_truthy.
Qed.

(** The store is used through these lemmas from here on. *)
#[local] Opaque getItem setItem removeItem saveApiKey.

(** Every branch of an action, with the state read back through the
    setters. *)
Ltac frame_step :=
  cbn [perform state_of
       inputText outputText isLoading apiKey selectedModel modelFilter
       showModelDropdown availableModels isLoadingModels showSettings
       systemPrompt localStorage origin
       set_inputText set_outputText set_isLoading set_apiKey
       set_selectedModel set_modelFilter set_showModelDropdown
       set_availableModels set_isLoadingModels
       set_showSettings set_systemPrompt set_localStorage
       fst snd].

Ltac frame_cases :=
  unfold perform, openSettings, closeSettings, toggleModelDropdown,
    closeDropdown, selectModel, resetPromptToDefault, assign_apiKey,
    assign_selectedModel, assign_systemPrompt, saveSelectedModel,
    saveSystemPrompt, generateDescription, generateDescription_resume,
    loadModels, loadModels_resume;
  repeat match goal with
         | |- context [generateDescription_try ?r] =>
             destruct (generateDescription_try r)
         | |- context [loadModels_try ?r] =>
             destruct (loadModels_try r) as [[?|]|?]
         | |- context [if ?b then _ else _] => destruct b
         end;
  frame_step.

Ltac frame_solve :=
  frame_cases; split; try reflexivity;
  rewrite ?getItem_setItem_ne, ?getItem_saveApiKey_ne by congruence;
  reflexivity.

Lemma perform_frame_apiKey (a : action) (st : state) :
  match a with
  | TypeApiKey _ => True
  | _ => apiKey (perform a st) = apiKey st
         /\ getItem KEY_API_KEY (localStorage (perform a st))
            = getItem KEY_API_KEY (localStorage st)
  end.
Proof.
  destruct keys_distinct as (Hkm & Hkp & Hmp).
  destruct a; try exact I; frame_solve.
Qed.

Lemma perform_frame_selectedModel (a : action) (st : state) :
  match a with
  | PickModel _ => True
  | _ => selectedModel (perform a st) = selectedModel st
         /\ getItem KEY_SELECTED_MODEL (localStorage (perform a st))
            = getItem KEY_SELECTED_MODEL (localStorage st)
  end.
Proof.
  destruct keys_distinct as (Hkm & Hkp & Hmp).
  destruct a; try exact I; frame_solve.
Qed.

Lemma perform_frame_systemPrompt (a : action) (st : state) :
  match a with
  | TypePrompt _ | ResetPrompt => True
  | _ => systemPrompt (perform a st) = systemPrompt st
         /\ getItem KEY_SYSTEM_PROMPT (localStorage (perform a st))
            = getItem KEY_SYSTEM_PROMPT (localStorage st)
  end.
Proof.
  destruct keys_distinct as (Hkm & Hkp & Hmp).
  destruct a; try exact I; frame_solve.
Qed.

(** X17. Each setting has one way in: of all the things a session can do,
    only typing into the key field changes the API key or what the store
    holds for it, only picking a model changes the selection or its stored
    value, and only editing or resetting the prompt changes the prompt or
    its stored value. In particular no request, answer or failure ever
    writes, replaces or deletes the stored key. *)
Theorem settings_written_by_their_control (a : action) (st : state) :
  match a with
  | TypeApiKey _ => True
  | _ => apiKey (perform a st) = apiKey st
         /\ getItem KEY_API_KEY (localStorage (perform a st))
            = getItem KEY_API_KEY (localStorage st)
  end
  /\ match a with
     | PickModel _ => True
     | _ => selectedModel (perform a st) = selectedModel st
            /\ getItem KEY_SELECTED_MODEL (localStorage (perform a st))
               = getItem KEY_SELECTED_MODEL (localStorage st)
     end
  /\ match a with
     | TypePrompt _ | ResetPrompt => True
     | _ => systemPrompt (perform a st) = systemPrompt st
            /\ getItem KEY_SYSTEM_PROMPT (localStorage (perform a st))
               = getItem KEY_SYSTEM_PROMPT (localStorage st)
     end.
Proof.
  split; [apply perform_frame_apiKey|].
  split; [apply perform_frame_selectedModel | apply perform_frame_systemPrompt].
Qed.

Lemma perform_all_invariant (P : state -> Prop) (actions : list action)
    (st : state) :
  (forall a st', P st' -> P (perform a st')) ->
  P st -> P (perform_all actions st).
Proof.
  intros Hstep. revert st. unfold perform_all.
  induction actions as [|a actions IH]; intros st Hst; simpl; [done|].
  apply IH. by apply Hstep.
Qed.

Lemma reload_settings (st : state) :
  apiKey (reload st) = getItem_or KEY_API_KEY [] (localStorage st)
  /\ selectedModel (reload st)
     = getItem_or KEY_SELECTED_MODEL DEFAULT_MODEL (localStorage st)
  /\ systemPrompt (reload st)
     = getItem_or KEY_SYSTEM_PROMPT defaultPrompt (localStorage st).
Proof. by repeat split. Qed.

Lemma settings_persisted_perform (a : action) (st : state) :
  settings_persisted st -> settings_persisted (perform a st).
Proof.
  unfold settings_persisted.
  destruct (reload_settings st) as (-> & -> & ->).
  destruct (reload_settings (perform a st)) as (-> & -> & ->).
  intros (Hkey & Hmodel & Hprompt).
  pose proof (perform_frame_apiKey a st) as Fkey.
  pose proof (perform_frame_selectedModel a st) as Fmodel.
  pose proof (perform_frame_systemPrompt a st) as Fprompt.
  split; [|split].
  - destruct a;
      try (rewrite (proj1 Fkey), (getItem_or_same _ _ _ _ (proj2 Fkey));
           exact Hkey).
    unfold perform, assign_apiKey. case_decide as Hsame; frame_step.
    + by subst.
    + rewrite getItem_or_saveApiKey.
      destruct (only_blanks key) eqn:Hblank;
        [right; by apply trim_nil | by left].
  - destruct a;
      try (rewrite (proj1 Fmodel), (getItem_or_same _ _ _ _ (proj2 Fmodel));
           exact Hmodel).
    unfold perform, selectModel, assign_selectedModel, saveSelectedModel.
    case_decide; frame_step; rewrite getItem_or_stored;
      destruct modelId; simpl; auto.
  - destruct a;
      try (rewrite (proj1 Fprompt), (getItem_or_same _ _ _ _ (proj2 Fprompt));
           exact Hprompt).
    + unfold perform, assign_systemPrompt, saveSystemPrompt.
      case_decide as Hsame; frame_step.
      * by subst.
      * rewrite getItem_or_stored. destruct prompt; simpl; auto.
    + unfold perform, resetPromptToDefault, assign_systemPrompt,
        saveSystemPrompt.
      case_decide; frame_step;
        rewrite getItem_or_stored, defaultPrompt_truthy; by left.
Qed.

(** X18. Write-through, for the sessions in which every model picked has a
    string id (those of [action]): in every state such a session reaches,
    from any store and by any sequence of its actions and of answers, each
    of the three settings reads back from the store as the ref holds it,
    the only exceptions being the values that are never kept: an API key of
    blanks, an empty model id, an empty prompt. *)
Theorem settings_always_persisted (ls : Storage) (org : jsstring)
    (actions : list action) :
  settings_persisted (perform_all actions (initial_state ls org)).
Proof.
  apply perform_all_invariant; [apply settings_persisted_perform|].
  repeat split; by left.
Qed.

Lemma loading_perform (a : action) (st : state) :
  (isLoading st = true -> outputText st = VStr []) ->
  isLoading (perform a st) = true -> outputText (perform a st) = VStr [].
Proof.
  intros Hinv. destruct a; frame_cases; auto; done.
Qed.

(** X19. In every state a session can reach, also when runs of
    [generateDescription] overlap, a raised loading flag goes with an empty
    output text: no result of an earlier run is held while one is
    loading. *)
Theorem loading_hides_output (ls : Storage) (org : jsstring)
    (actions : list action) :
  isLoading (perform_all actions (initial_state ls org)) = true ->
  outputText (perform_all actions (initial_state ls org)) = VStr [].
Proof.
  apply (perform_all_invariant
           (fun st => isLoading st = true -> outputText st = VStr [])).
  - intros a st. apply loading_perform.
  - done.
Qed.

Lemma generate_button_enabled (st : state) :
  generate_disabled st = false ->
  isLoading st = false /\ perform Generate st = loading_state st.
Proof.
  unfold generate_disabled. intros Hen.
  apply orb_false_iff in Hen as [Hen Hkey].
  apply orb_false_iff in Hen as [Hload Hin].
  split; [done|]. unfold perform, generateDescription.
  by rewrite Hin, Hkey.
Qed.

Lemma perform_frame_isLoading (a : action) (st : state) :
  match a with
  | Generate | GenerateResumed _ => True
  | _ => isLoading (perform a st) = isLoading st
  end.
Proof. destruct a; try exact I; frame_cases; reflexivity. Qed.

Lemma session_perform_counts (a : action) (s s' : session) :
  flag_counts s -> session_perform a s = Some s' -> flag_counts s'.
Proof.
  unfold flag_counts. intros Hinv.
  pose proof (perform_frame_isLoading a (ui s)) as Hframe.
  destruct a; cbv beta iota in Hframe; cbn [session_perform];
    try (intros Hstep; apply (inj Some) in Hstep; subst s';
         cbn [ui in_flight]; by rewrite Hframe).
  - destruct (generate_disabled (ui s)) eqn:Hdis; [done|].
    intros Hstep; apply (inj Some) in Hstep; subst s'. cbn [ui in_flight].
    destruct (generate_button_enabled (ui s) Hdis) as (Hload & ->).
    destruct Hinv as [[Hl _]|[_ ->]]; [congruence|].
    left. split; reflexivity.
  - destruct (in_flight s) as [|n] eqn:Hn; [done|].
    intros Hstep; apply (inj Some) in Hstep; subst s'.
    cbn [ui in_flight perform].
    rewrite generateDescription_resume_isLoading.
    destruct Hinv as [[_ Hone]|[_ Hzero]]; [|done].
    right. split; [done|]. lia.
Qed.

Lemma session_run_counts (actions : list action) (s s' : session) :
  flag_counts s -> session_run actions s = Some s' -> flag_counts s'.
Proof.
  revert s. induction actions as [|a actions IH]; intros s Hinv; simpl.
  - by intros [= <-].
  - destruct (session_perform a s) as [s1|] eqn:Hstep; [|done].
    apply IH. by eapply session_perform_counts.
Qed.

(** X20. Through the template, generation requests never overlap: in a
    session where the generate button is only clicked while enabled, at
    most one completion request is out at any time, the loading flag is up
    exactly while it is out, and the button is disabled for that time. *)
Theorem one_generation_in_flight (ls : Storage) (org : jsstring)
    (actions : list action) (s : session) :
  session_run actions (initial_session ls org) = Some s ->
  (in_flight s <= 1)%nat
  /\ (isLoading (ui s) = true <-> in_flight s = 1%nat)
  /\ (in_flight s = 1%nat -> session_perform Generate s = None).
Proof.
  intros Hrun.
  assert (Hinv : flag_counts s).
  { eapply session_run_counts; [|exact Hrun]. by right. }
  destruct Hinv as [[Hload Hone]|[Hload Hzero]].
  - split; [lia|]. split; [done|]. intros _.
    unfold session_perform, generate_disabled. by rewrite Hload.
  - split; [lia|]. split; [|lia].
    split; [congruence | lia].
Qed.

(** ** The label of the model button, in every session *)

Lemma map_entry_shown (entry : value) (m : Model) (i : jsstring) :
  map_entry entry = Normal m ->
  id m = VStr i -> i <> [] -> ToBoolean (name m) = true.
Proof.
  intros Hm.
  assert (Hnull : entry <> VNull).
  { intros ->. rewrite map_entry_absent in Hm by auto. discriminate. }
  assert (Hundef : entry <> VUndefined).
  { intros ->. rewrite map_entry_absent in Hm by auto. discriminate. }
  revert Hm. unfold map_entry.
  destruct (Get_present entry (js "id") Hnull Hundef) as [entry_id ->].
  destruct (Get_present entry (js "name") Hnull Hundef) as [entry_name ->].
  destruct (Get_present entry (js "description") Hnull Hundef) as [d ->].
  destruct (Get_present entry (js "context_length") Hnull Hundef) as [c ->].
  destruct (Get_present entry (js "pricing") Hnull Hundef) as [p ->].
  cbn [mbind completion_bind].
  destruct (ToBoolean entry_name) eqn:Htruthy;
    intros Hm; cbn [mbind completion_bind] in Hm; injection Hm as <-;
    cbn [id name]; [done|].
  intros -> Hi. by destruct i.
Qed.

Lemma array_map_Forall {A B} (f : A -> completion B) (P : B -> Prop)
    (xs : list A) (ys : list B) :
  (forall x y, f x = Normal y -> P y) ->
  array_map f xs = Normal ys -> Forall P ys.
Proof.
  intros Hf. revert ys. induction xs as [|x xs IH]; intros ys; simpl.
  - by intros [= <-].
  - destruct (f x) as [y|] eqn:Hy; [|done]. simpl.
    destruct (array_map f xs) as [zs|]; [|done]. simpl.
    intros [= <-]. constructor; [by eapply Hf | by apply IH].
Qed.

Lemma names_shown_fallback : names_shown fallbackModels.
Proof. repeat constructor; intros i _ _; by vm_compute. Qed.

Lemma loadModels_try_shown (r : fetch_outcome) (models : list Model) :
  loadModels_try r = Normal (Some models) -> names_shown models.
Proof.
  unfold loadModels_try. destruct r as [|status [data|]]; [done| |];
    (destruct (ok status); [|done]); [|done].
  destruct (Get data (js "data")) as [entries|]; [|done].
  cbn [mbind completion_bind]. unfold call_map.
  destruct entries as [| | | | |entries|]; try done.
  destruct (array_map map_entry entries) as [ms|] eqn:Hmap; [|done].
  intros [= <-]. eapply array_map_Forall; [|exact Hmap].
  intros entry m Hm i. by apply map_entry_shown with entry.
Qed.

Lemma names_shown_perform (a : action) (st : state) :
  names_shown (availableModels st) ->
  names_shown (availableModels (perform a st)).
Proof.
  intros Hinv. destruct a; try (frame_cases; exact Hinv).
  unfold perform, loadModels_resume.
  destruct (loadModels_try r) as [[models|]|e] eqn:Htry; frame_step.
  - by apply loadModels_try_shown with r.
  - exact Hinv.
  - apply names_shown_fallback.
Qed.

Lemma getSelectedModelName_truthy (st : state) :
  names_shown (availableModels st) ->
  selectedModel st <> [] ->
  ToBoolean (getSelectedModelName st) = true.
Proof.
  intros Hshown Hsel. unfold getSelectedModelName.
  destruct (List.find _ _) as [m|] eqn:Hfind.
  - apply find_some in Hfind as [Hin Heq].
    apply strict_equals_string_true in Heq.
    unfold names_shown in Hshown. rewrite Forall_forall in Hshown.
    apply list_elem_of_In in Hin. by eapply Hshown.
  - cbn [ToBoolean]. by destruct (selectedModel st).
Qed.

(** X21. For the sessions in which every model picked has a string id
    (those of [action]): in every state such a session reaches, whatever
    the catalog endpoint answered along the way, the model button has
    something to show as long as the selected id is not empty: the name
    found for it is never an empty or missing value, since a descriptor
    with that id and without a name got the id for name, and an id the
    catalog does not have is shown itself. *)
Theorem model_label_never_empty (ls : Storage) (org : jsstring)
    (actions : list action) :
  selectedModel (perform_all actions (initial_state ls org)) <> [] ->
  ToBoolean (getSelectedModelName
               (perform_all actions (initial_state ls org))) = true.
Proof.
  apply getSelectedModelName_truthy.
  apply (perform_all_invariant
           (fun st => names_shown (availableModels st))).
  - apply names_shown_perform.
  - constructor.
Qed.

(** The sessions of [action] leave out no click when the catalog answers
    carry string ids: then every option listed has a string id. *)
Lemma map_entry_id (entry : value) (m : Model) :
  map_entry entry = Normal m -> Get entry (js "id") = Normal (id m).
Proof.
  intros Hm.
  assert (Hnull : entry <> VNull).
  { intros ->. rewrite map_entry_absent in Hm by auto. discriminate. }
  assert (Hundef : entry <> VUndefined).
  { intros ->. rewrite map_entry_absent in Hm by auto. discriminate. }
  revert Hm. unfold map_entry.
  destruct (Get_present entry (js "id") Hnull Hundef) as [entry_id ->].
  destruct (Get_present entry (js "name") Hnull Hundef) as [entry_name ->].
  destruct (Get_present entry (js "description") Hnull Hundef) as [d ->].
  destruct (Get_present entry (js "context_length") Hnull Hundef) as [c ->].
  destruct (Get_present entry (js "pricing") Hnull Hundef) as [p ->].
  cbn [mbind completion_bind].
  destruct (ToBoolean entry_name);
    intros Hm; cbn [mbind completion_bind] in Hm; by injection Hm as <-.
Qed.

Lemma array_map_Forall2 {A B} (f : A -> completion B) (xs : list A)
    (ys : list B) :
  array_map f xs = Normal ys -> Forall2 (fun x y => f x = Normal y) xs ys.
Proof.
  revert ys. induction xs as [|x xs IH]; intros ys; simpl.
  - intros [= <-]. constructor.
  - destruct (f x) as [y|] eqn:Hy; [|done]. simpl.
    destruct (array_map f xs) as [zs|]; [|done]. simpl.
    intros [= <-]. constructor; [done | by apply IH].
Qed.

Lemma options_have_string_ids (ls : Storage) (org : jsstring)
    (actions : list action) :
  answers_string_ids actions ->
  Forall (fun m => is_string (id m) = true)
    (availableModels (perform_all actions (initial_state ls org))).
Proof.
  unfold perform_all.
  assert (Hinit : Forall (fun m => is_string (id m) = true)
                    (availableModels (initial_state ls org)))
    by constructor.
  revert Hinit. generalize (initial_state ls org).
  induction actions as [|a actions IH]; intros st Hst Hall; [done|].
  apply Forall_cons in Hall as [Ha Hall]. simpl.
  apply IH; [|done]. clear IH Hall.
  destruct a; try (frame_cases; exact Hst).
  unfold perform, loadModels_resume.
  destruct (loadModels_try r) as [[models|]|e] eqn:Htry; frame_step.
  - revert Htry. unfold loadModels_try.
    destruct r as [|status [data|]]; [done| |];
      (destruct (ok status); [|done]); [|done].
    destruct (Get data (js "data")) as [entries|] eqn:Hdata; [|done].
    cbn [mbind completion_bind]. unfold call_map.
    destruct entries as [| | | | |entries|]; try done.
    destruct (array_map map_entry entries) as [ms|] eqn:Hmap; [|done].
    intros [= <-].
    pose proof (Ha status data entries eq_refl Hdata) as Hids.
    apply array_map_Forall2 in Hmap.
    clear Hdata Ha. induction Hmap as [|entry m entries ms Hm _ IH].
    + constructor.
    + apply Forall_cons in Hids as [[i Hi] Hids].
      constructor; [|by apply IH].
      apply map_entry_id in Hm. rewrite Hi in Hm.
      injection Hm as <-. reflexivity.
  - exact Hst.
  - repeat constructor.
Qed.

(** ** Instances, continued *)

(** The sample session has its button enabled. *)
Lemma generate_button_gates_witness :
  generate_disabled sample_state = false
  /\ generate_disabled (loading_state sample_state) = true.
Proof.
  assert (Hen : generate_disabled sample_state = false) by (by vm_compute).
  split; [exact Hen|].
  exact (proj1 (proj2 (generate_button_gates sample_state Hen))).
Defined.


(** A prompt without token is sent as it is. *)
Lemma render_prompt_without_token_witness :
  occurrences (systemPrompt tokenless_state) INPUT_TOKEN = 0%nat
  /\ render_prompt tokenless_state = systemPrompt tokenless_state.
Proof.
  assert (Hzero : occurrences (systemPrompt tokenless_state) INPUT_TOKEN
                  = 0%nat) by (by vm_compute).
  split; [exact Hzero|].
  exact (proj1 (render_prompt_without_token tokenless_state Hzero)).
Defined.

(** The default prompt and a text without dollar sign. *)
Lemma render_prompt_first_token_witness :
  (1 <= occurrences (systemPrompt sample_state) INPUT_TOKEN)%nat
  /\ (JsString.DOLLAR ∉ inputText sample_state)
  /\ exists pre post,
      systemPrompt sample_state = pre ++ INPUT_TOKEN ++ post
      /\ render_prompt sample_state = pre ++ inputText sample_state ++ post
      /\ forall pre' post',
          systemPrompt sample_state = pre' ++ INPUT_TOKEN ++ post' ->
          (length pre <= length pre')%nat.
Proof.
  assert (Hsome : (1 <= occurrences (systemPrompt sample_state)
                          INPUT_TOKEN)%nat)
    by (apply Nat.leb_le; by vm_compute).
  assert (Hfree : JsString.DOLLAR ∉ inputText sample_state)
    by (apply (bool_decide_unpack _); by vm_compute).
  split; [exact Hsome|]. split; [exact Hfree|].
  exact (render_prompt_first_token sample_state Hsome Hfree).
Defined.


(** A [null] among the entries. *)
Lemma loadModels_malformed_body_witness :
  ok 200 = true
  /\ (exists entries,
        Get sample_catalog_with_null (js "data") = Normal (VArr entries)
        /\ VNull ∈ entries)
  /\ loadModels_resume (FetchResponse 200 (Some sample_catalog_with_null))
       sample_state
     = ([ConsoleError MODELS_ERROR_LABEL TypeError],
        set_isLoadingModels false
          (set_availableModels fallbackModels sample_state)).
Proof.
  assert (Hnull : exists entries,
             Get sample_catalog_with_null (js "data")
             = Normal (VArr entries)
             /\ VNull ∈ entries).
  { exists [sample_entry; VNull; sample_full_entry].
    split; [by vm_compute|]. apply list_elem_of_further, list_elem_of_here. }
  split; [reflexivity|]. split; [exact Hnull|].
  exact (loadModels_malformed_body 200 sample_catalog_with_null
           sample_state eq_refl (or_intror Hnull)).
Defined.

(** The fallback catalog filtered by [GPT]. *)
Lemma filter_models_exact_witness :
  Forall Model_typed fallbackModels
  /\ js "GPT" <> []
  /\ filter_models ascii_toLowerCase fallbackModels (js "GPT")
     = Normal (List.filter
                 (kept ascii_toLowerCase (ascii_toLowerCase (js "GPT")))
                 fallbackModels).
Proof.
  assert (Htyped : Forall Model_typed fallbackModels)
    by (repeat constructor).
  assert (Hf : js "GPT" <> []) by (by vm_compute).
  split; [exact Htyped|]. split; [exact Hf|].
  exact (proj1 (filter_models_exact ascii_toLowerCase fallbackModels
                  (js "GPT") Htyped Hf)).
Defined.

(** A descriptor without name behind a typed one. *)
Lemma filter_models_bad_name_throws_witness :
  js "GPT" <> []
  /\ Exists (fun m => is_string (name m) = false)
       (fallbackModels ++ [nameless_model])
  /\ filter_models ascii_toLowerCase (fallbackModels ++ [nameless_model])
       (js "GPT")
     = Throw TypeError.
Proof.
  assert (Hf : js "GPT" <> []) by (by vm_compute).
  assert (Hbad : Exists (fun m => is_string (name m) = false)
                   (fallbackModels ++ [nameless_model]))
    by (apply Exists_app; right; by constructor).
  split; [exact Hf|]. split; [exact Hbad|].
  exact (filter_models_bad_name_throws ascii_toLowerCase _ _ Hf Hbad).
Defined.

(** Before any catalog is there, the default id is shown. *)
Lemma getSelectedModelName_unknown_witness :
  Forall (fun m => id m <> VStr (selectedModel sample_state))
    (availableModels sample_state)
  /\ getSelectedModelName sample_state = VStr DEFAULT_MODEL.
Proof.
  assert (Hnone : Forall (fun m => id m <> VStr (selectedModel sample_state))
                    (availableModels sample_state)) by constructor.
  split; [exact Hnone|].
  exact (getSelectedModelName_unknown sample_state Hnone).
Defined.

(** The second model of the fallback catalog is picked. *)
Lemma selectModel_shows_name_witness :
  (exists m,
     availableModels fallback_state = take 1 fallbackModels ++ m :: []
     /\ id m = VStr (js "anthropic/claude-sonnet-4")
     /\ Forall (fun m' => id m' <> VStr (js "anthropic/claude-sonnet-4"))
          (take 1 fallbackModels))
  /\ getSelectedModelName
       (selectModel (js "anthropic/claude-sonnet-4") fallback_state)
     = VStr (js "Claude Sonnet 4").
Proof.
  assert (Hpre : Forall
            (fun m' => id m' <> VStr (js "anthropic/claude-sonnet-4"))
            (take 1 fallbackModels)).
  { repeat constructor. intros H. by vm_compute in H. }
  split.
  - eexists. split; [reflexivity|]. split; [reflexivity | exact Hpre].
  - exact (proj1 (selectModel_shows_name fallback_state
                    (take 1 fallbackModels) [] _
                    (js "anthropic/claude-sonnet-4")
                    eq_refl eq_refl Hpre)).
Defined.

(** A first key is typed. *)
Lemma assign_apiKey_round_trip_witness :
  js "sk-123" <> apiKey (initial_state ∅ sample_origin)
  /\ apiKey (reload (assign_apiKey (js "sk-123")
                       (initial_state ∅ sample_origin)))
     = js "sk-123".
Proof.
  assert (Hnew : js "sk-123" <> apiKey (initial_state ∅ sample_origin))
    by (by vm_compute).
  split; [exact Hnew|].
  exact (assign_apiKey_round_trip _ _ Hnew).
Defined.

(** A prompt of the user's own. *)
Lemma systemPrompt_round_trip_witness :
  js "Summarise: {input}" <> systemPrompt sample_state
  /\ systemPrompt (reload (assign_systemPrompt (js "Summarise: {input}")
                             sample_state))
     = js "Summarise: {input}".
Proof.
  assert (Hnew : js "Summarise: {input}" <> systemPrompt sample_state)
    by (intros H; by vm_compute in H).
  split; [exact Hnew|].
  exact (proj1 (systemPrompt_round_trip sample_state _ Hnew)).
Defined.

(** The button has just been clicked. *)
Lemma loading_hides_output_witness :
  isLoading (perform_all generate_actions (initial_state ∅ sample_origin))
  = true
  /\ outputText
       (perform_all generate_actions (initial_state ∅ sample_origin))
     = VStr [].
Proof.
  assert (Hload : isLoading (perform_all generate_actions
                               (initial_state ∅ sample_origin)) = true)
    by (by vm_compute).
  split; [exact Hload|].
  exact (loading_hides_output ∅ sample_origin generate_actions Hload).
Defined.

(** One request is out after the click. *)
Lemma one_generation_in_flight_witness :
  session_run generate_actions (initial_session ∅ sample_origin)
  = Some {| ui := perform_all generate_actions
                    (initial_state ∅ sample_origin);
            in_flight := 1 |}
  /\ session_perform Generate
       {| ui := perform_all generate_actions
                  (initial_state ∅ sample_origin);
          in_flight := 1 |}
     = None.
Proof.
  assert (Hrun : session_run generate_actions
                   (initial_session ∅ sample_origin)
                 = Some {| ui := perform_all generate_actions
                                   (initial_state ∅ sample_origin);
                           in_flight := 1 |}) by (by vm_compute).
  split; [exact Hrun|].
  exact (proj2 (proj2 (one_generation_in_flight ∅ sample_origin
                         generate_actions _ Hrun)) eq_refl).
Defined.

(** A model without name is picked from the sample catalog. *)
Lemma model_label_never_empty_witness :
  selectedModel (perform_all catalog_actions
                   (initial_state ∅ sample_origin)) <> []
  /\ ToBoolean (getSelectedModelName
                  (perform_all catalog_actions
                     (initial_state ∅ sample_origin))) = true.
Proof.
  assert (Hsel : selectedModel (perform_all catalog_actions
                                  (initial_state ∅ sample_origin)) <> [])
    by (by vm_compute).
  split; [exact Hsel|].
  exact (model_label_never_empty ∅ sample_origin catalog_actions Hsel).
Defined.
